(** * solar-system-threejs: orbital kinematics, selective bloom and the
      Sun's noise shader

    A shallow embedding of [src/main.js] (the current revision) and of the
    earlier revision of the same file, with the properties the
    specification states about them.

    Modelling conventions.
    - JavaScript numbers of the kinematics code are real numbers ([R]):
      rounding, infinities and NaN of binary64 are not represented.
      [Math.cos], [Math.sin] and [Math.PI] are [cos], [sin] and [PI].
      Where rounding decides a property, the arithmetic of the line in
      question is also given in binary64 (module [Binary64]).
    - The GLSL noise code uses [+], [*], [floor] and [fract] only, so it is
      embedded over the rationals ([Q]), which contain every finite float and
      keep the functions executable; float rounding is not represented.
    - The scene graph is a tree of nodes carrying an identity; the side
      table [materials] (a JavaScript [Map] keyed by object identity) is a
      [gmap] from identities.
    - Globals read by a function ([CONFIG], [now], the result of
      [Math.random()]) are passed to it explicitly. *)

From Stdlib Require Import Reals Psatz RNsatz ZArith QArith Qround List String.
From Stdlib Require PrimFloat.
From stdpp Require Import base gmap.
Import ListNotations.

(** ** Shared data *)

(** A thrown JavaScript exception, by the name of its class. *)
Inductive JsError : Type :=
| Error (name : string).

(** The completion of a statement sequence: it runs to its end or throws. *)
Inductive completion (A : Type) : Type :=
| Normal (v : A)
| Throw (e : JsError).

Arguments Normal {A} v.
Arguments Throw {A} e.

(** [THREE.Vector3] and [THREE.Euler] over the reals. *)
Record Vector3 : Type := mkVector3 { vx : R; vy : R; vz : R }.

Record Euler : Type := mkEuler { ex : R; ey : R; ez : R }.

(** ** Orbital kinematics of the current revision ([src/main.js]) *)

Module Kinematics.
Local Open Scope R_scope.
Local Open Scope string_scope.

(** The numeric fields of [CONFIG] (lines 9-19). *)
Record Config : Type := mkConfig {
  cfgAU : R;
  radiusScale : R;
  timeScale : R;
  orbitalSpeedBoost : R;
  labelScale : R
}.

Definition CONFIG : Config :=
  {| cfgAU := 60;
     radiusScale := 2.0;
     timeScale := 1.0;
     orbitalSpeedBoost := 1000000;
     labelScale := 1.6 |}.

(** An entry of the catalog [PLANETS] (lines 184-193). *)
Record CatalogEntry : Type := mkEntry {
  e_name : string;
  e_radius : R;
  a_AU : R;
  period_days : R;
  e_color : Z
}.

Definition PLANETS_of (cfg : Config) : list CatalogEntry :=
  [ mkEntry "Mercury" (1.3 * radiusScale cfg) 0.387 87.969 0xaaaaaa;
    mkEntry "Venus" (2.1 * radiusScale cfg) 0.723 224.701 0xffd27f;
    mkEntry "Earth" (2.2 * radiusScale cfg) 1.000 365.256 0x3ba3ff;
    mkEntry "Mars" (1.8 * radiusScale cfg) 1.524 686.980 0xff6a4b;
    mkEntry "Jupiter" (8.5 * radiusScale cfg) 5.203 4332.59 0xffaa00;
    mkEntry "Saturn" (7.3 * radiusScale cfg) 9.537 10759.2 0xffe680;
    mkEntry "Uranus" (3.7 * radiusScale cfg) 19.191 30685.4 0x80ffff;
    mkEntry "Neptune" (3.5 * radiusScale cfg) 30.07 60190 0x5f7dff ].

Definition PLANETS : list CatalogEntry := PLANETS_of CONFIG.

(** The object literals [axialTilts] and [phaseOffsets], read by name. *)
Definition axialTilts : list (string * R) :=
  [ ("Mercury", 0.01); ("Venus", 177.4); ("Earth", 23.4); ("Mars", 25.2);
    ("Jupiter", 3.1); ("Saturn", 26.7); ("Uranus", 97.8); ("Neptune", 28.3) ].

Definition phaseOffsets : list (string * R) :=
  [ ("Mercury", 0.1); ("Venus", 1.2); ("Earth", 2.1); ("Mars", 3.0);
    ("Jupiter", 0.5); ("Saturn", 1.6); ("Uranus", 2.7); ("Neptune", 3.8) ].

Fixpoint property (table : list (string * R)) (key : string) : option R :=
  match table with
  | [] => None
  | (k, v) :: rest => if String.eqb k key then Some v else property rest key
  end.

(** [table[key] || 0]: an absent property reads [undefined], which is
    falsy; a present [0] is falsy too and yields the same [0]. *)
Definition property_or_0 (table : list (string * R)) (key : string) : R :=
  match property table key with
  | Some v => v
  | None => 0
  end.

Definition daySec : R := 86400.

(** [THREE.MathUtils.degToRad]. *)
Definition degToRad (degrees : R) : R := degrees * (PI / 180).

(** Truncation toward zero and the JavaScript remainder [x % y], whose sign
    follows the dividend.  For [y = 0] JavaScript yields NaN, which this
    model does not represent. *)
Definition Rtrunc (r : R) : Z :=
  if Rle_lt_dec 0 r then Int_part r else (- Int_part (- r))%Z.

Definition js_rem (x y : R) : R := x - y * IZR (Rtrunc (x / y)).

(** The part of [THREE.Mesh] the kinematics writes. *)
Record Mesh : Type := mkMesh {
  position : Vector3;
  rotation : Euler
}.

(** The record [makePlanet] returns (lines 263-272); [group] carries no
    state of its own in this revision. *)
Record Planet : Type := mkPlanet {
  name : string;
  mesh : Mesh;
  radius : R;
  distance : R;
  meanMotionSec : R;
  theta : R;
  spin : R
}.

(** [makePlanet] (lines 225-273).  [now] is [Date.now()] in milliseconds,
    [rnd] the value of [Math.random()]. *)
Definition makePlanet (cfg : Config) (now rnd : R) (p : CatalogEntry) : Planet :=
  let AU := cfgAU cfg in
  let distance := a_AU p * AU in
  let rotation_z := degToRad (property_or_0 axialTilts (e_name p)) in
  let periodSec := period_days p * daySec in
  let meanMotionSec := (2 * PI) / periodSec in
  let nowSec := js_rem (now / 1000) periodSec in
  let theta0 := meanMotionSec * nowSec + property_or_0 phaseOffsets (e_name p) in
  {| name := e_name p;
     mesh := {| position := mkVector3 (cos theta0 * distance) 0 (sin theta0 * distance);
                rotation := mkEuler 0 0 rotation_z |};
     radius := e_radius p;
     distance := distance;
     meanMotionSec := meanMotionSec;
     theta := theta0;
     spin := 0.01 + rnd * 0.02 |}.

(** The Moon's constants (lines 318-320). *)
Definition moonPeriodSec : R := 27.3 * daySec.
Definition moonMeanMotionSec : R := (2 * PI) / moonPeriodSec.

(** The state the animation loop reads and writes. *)
Record SimState : Type := mkSimState {
  sun_rotation_y : R;
  planets : list Planet;
  moonAngle : R;
  moonGroup_rotation_y : R
}.

(** The records [PLANETS.map(makePlanet)] (line 275) is made of.  [rnds]
    supplies one [Math.random()] value per planet (0 when it runs short,
    which only affects [spin]). *)
Fixpoint map_makePlanet (cfg : Config) (now : R) (rnds : list R)
    (catalog : list CatalogEntry) : list Planet :=
  match catalog with
  | [] => []
  | p :: rest =>
      makePlanet cfg now (hd 0 rnds) p :: map_makePlanet cfg now (tl rnds) rest
  end.

(** The kinematic state that the values of lines 275 and 321 make up:
    the planets of [PLANETS.map(makePlanet)] and
    [moonAngle = Math.random() * Math.PI * 2], with [rndMoon] the Moon's
    random value.  Whether evaluation of the module gets as far as these
    lines is the matter of module [Startup] below. *)
Definition initial_state (cfg : Config) (now : R) (rnds : list R) (rndMoon : R)
    (catalog : list CatalogEntry) : SimState :=
  {| sun_rotation_y := 0;
     planets := map_makePlanet cfg now rnds catalog;
     moonAngle := rndMoon * PI * 2;
     moonGroup_rotation_y := 0 |}.

(** [getClampedDelta] (line 346), from the value of [clock.getDelta()]. *)
Definition getClampedDelta (clockDelta : R) : R := Rmin clockDelta 0.05.

(** The body of the [planets.forEach] callback of [animate] (lines 361-369),
    in exact arithmetic; [Binary64.step_theta] is the sum of line 362 as
    binary64 computes it. *)
Definition advance_planet (cfg : Config) (dt : R) (p : Planet) : Planet :=
  let warp := timeScale cfg * orbitalSpeedBoost cfg in
  let theta' := theta p + meanMotionSec p * dt * warp in
  {| name := name p;
     mesh := {| position := mkVector3 (cos theta' * distance p) 0 (sin theta' * distance p);
                rotation := mkEuler (ex (rotation (mesh p)))
                                    (ey (rotation (mesh p)) + spin p * timeScale cfg * 1.4)
                                    (ez (rotation (mesh p))) |};
     radius := radius p;
     distance := distance p;
     meanMotionSec := meanMotionSec p;
     theta := theta';
     spin := spin p |}.

(** The kinematic part of [animate] (lines 354-373), from the clamped
    delta [dt] on. *)
Definition advance (cfg : Config) (dt : R) (st : SimState) : SimState :=
  let warp := timeScale cfg * orbitalSpeedBoost cfg in
  let moonAngle' := moonAngle st + moonMeanMotionSec * dt * warp in
  {| sun_rotation_y := sun_rotation_y st + 0.002 * timeScale cfg;
     planets := map (advance_planet cfg dt) (planets st);
     moonAngle := moonAngle';
     moonGroup_rotation_y := moonAngle' |}.

Definition animate_orbits (cfg : Config) (clockDelta : R) (st : SimState) : SimState :=
  advance cfg (getClampedDelta clockDelta) st.

(** The states of the kinematics: the one lines 275 and 321 build from a
    catalog, and those the calls of [animate] make of it. *)
Inductive reachable (cfg : Config) (catalog : list CatalogEntry) : SimState -> Prop :=
| reach_initial now rnds rndMoon :
    reachable cfg catalog (initial_state cfg now rnds rndMoon catalog)
| reach_frame clockDelta st :
    reachable cfg catalog st ->
    reachable cfg catalog (animate_orbits cfg clockDelta st).

End Kinematics.

(** ** Orbit placement of the earlier revision ([src/unnamed/part_000]) *)

Module Rev0.
Local Open Scope R_scope.
Local Open Scope string_scope.

Import Kinematics.

Definition AU : R := 50.
Definition dayMs : R := 86400000.

Definition phaseOffsets : list (string * R) :=
  [ ("Mercury", 0.1); ("Venus", 1.2); ("Earth", 2.1); ("Mars", 3.0);
    ("Jupiter", 0.5); ("Saturn", 1.6); ("Uranus", 2.7); ("Neptune", 3.8) ].

(** The upper-left 3x3 block of a [THREE.Matrix4], row by row. *)
Record Matrix3 : Type := mkMatrix3 {
  n11 : R; n12 : R; n13 : R;
  n21 : R; n22 : R; n23 : R;
  n31 : R; n32 : R; n33 : R
}.

(** [Matrix4.makeRotationFromEuler] of three.js for the default order
    ['XYZ'] (a library function, transcribed from its source:
    [te[0] = c*e; te[4] = -c*f; te[8] = d; te[1] = af + be*d; ...]). *)
Definition makeRotationFromEuler (r : Euler) : Matrix3 :=
  let a := cos (ex r) in let b := sin (ex r) in
  let c := cos (ey r) in let d := sin (ey r) in
  let e := cos (ez r) in let f := sin (ez r) in
  let ae := a * e in let af := a * f in
  let be := b * e in let bf := b * f in
  {| n11 := c * e;        n12 := - c * f;        n13 := d;
     n21 := af + be * d;  n22 := ae - bf * d;    n23 := - b * c;
     n31 := bf - ae * d;  n32 := be + af * d;    n33 := a * c |}.

(** [Vector3.applyMatrix4] for a matrix without translation or projection. *)
Definition applyMatrix (m : Matrix3) (v : Vector3) : Vector3 :=
  mkVector3 (n11 m * vx v + n12 m * vy v + n13 m * vz v)
            (n21 m * vx v + n22 m * vy v + n23 m * vz v)
            (n31 m * vx v + n32 m * vy v + n33 m * vz v).

(** The record [makePlanet] returns in this revision, with the state of
    its [group] (at the origin, unscaled, child of the scene) and [mesh]. *)
Record Planet : Type := mkPlanet {
  name : string;
  group_rotation : Euler;
  mesh_position : Vector3;
  mesh_rotation : Euler;
  meanMotion : R;
  spin : R
}.

(** [makePlanet] (lines 95-119); [now] is [Date.now()]. *)
Definition makePlanet (now rnd : R) (p : CatalogEntry) : Planet :=
  let meanMotion := (2 * PI) / (period_days p * dayMs) in
  let t0 := js_rem now (period_days p * dayMs) in
  {| name := e_name p;
     group_rotation := mkEuler 0 (meanMotion * t0 + property_or_0 phaseOffsets (e_name p)) 0;
     mesh_position := mkVector3 (a_AU p * AU) 0 0;
     mesh_rotation := mkEuler 0 0 0;
     meanMotion := meanMotion;
     spin := 0.01 + rnd * 0.02 |}.

(** The [planets.forEach] callback of [animate] (lines 169-172). *)
Definition advance_planet (timeScale dt : R) (p : Planet) : Planet :=
  let dtMs := dt * 1000 in
  {| name := name p;
     group_rotation := mkEuler (ex (group_rotation p))
                               (ey (group_rotation p) + meanMotion p * dtMs * timeScale)
                               (ez (group_rotation p));
     mesh_position := mesh_position p;
     mesh_rotation := mkEuler (ex (mesh_rotation p))
                              (ey (mesh_rotation p) + spin p * timeScale)
                              (ez (mesh_rotation p));
     meanMotion := meanMotion p;
     spin := spin p |}.

(** [mesh.getWorldPosition]: the group's world matrix, a pure rotation,
    applied to the mesh's local position. *)
Definition worldPosition (p : Planet) : Vector3 :=
  applyMatrix (makeRotationFromEuler (group_rotation p)) (mesh_position p).

(** The states a planet of this revision goes through. *)
Inductive reachable : Planet -> Prop :=
| reach_make now rnd p : reachable (makePlanet now rnd p)
| reach_step timeScale dt pl :
    reachable pl -> reachable (advance_planet timeScale dt pl).

End Rev0.

(** ** The Sun's fragment shader ([SUN_FRAGMENT], lines 80-127) *)

Module Shader.
Local Open Scope Q_scope.

Record vec3 : Type := mkvec3 { x : Q; y : Q; z : Q }.

(** GLSL built-ins, as the GLSL specification defines them. *)
Definition floor (a : Q) : Q := inject_Z (Qfloor a).
Definition fract (a : Q) : Q := a - floor a.
Definition mix (a b t : Q) : Q := a * (1 - t) + b * t.

Definition vadd (p q : vec3) : vec3 := mkvec3 (x p + x q) (y p + y q) (z p + z q).
Definition vfloor (p : vec3) : vec3 := mkvec3 (floor (x p)) (floor (y p)) (floor (z p)).
Definition vfract (p : vec3) : vec3 := mkvec3 (fract (x p)) (fract (y p)) (fract (z p)).

(** [hash] (line 87). *)
Definition hash (p : vec3) : Q :=
  let p1 := vfract (mkvec3 (x p * 0.3183099 + 0.1) (y p * 0.3183099 + 0.2)
                           (z p * 0.3183099 + 0.3)) in
  let p2 := mkvec3 (x p1 * 17.0) (y p1 * 17.0) (z p1 * 17.0) in
  fract (x p2 * y p2 * z p2 * (x p2 + y p2 + z p2)).

(** [noise] (lines 88-97). *)
Definition noise (p : vec3) : Q :=
  let i := vfloor p in
  let f0 := vfract p in
  let f := mkvec3 (x f0 * x f0 * (3.0 - 2.0 * x f0))
                  (y f0 * y f0 * (3.0 - 2.0 * y f0))
                  (z f0 * z f0 * (3.0 - 2.0 * z f0)) in
  mix
    (mix (mix (hash (vadd i (mkvec3 0 0 0))) (hash (vadd i (mkvec3 1 0 0))) (x f))
         (mix (hash (vadd i (mkvec3 0 1 0))) (hash (vadd i (mkvec3 1 1 0))) (x f)) (y f))
    (mix (mix (hash (vadd i (mkvec3 0 0 1))) (hash (vadd i (mkvec3 1 0 1))) (x f))
         (mix (hash (vadd i (mkvec3 0 1 1))) (hash (vadd i (mkvec3 1 1 1))) (x f)) (y f))
    (z f).

(** The loop of [fbm] (lines 100-104): [n] iterations left, amplitude [a],
    running sum [s], sample point [p]. *)
Fixpoint fbm_loop (n : nat) (a s : Q) (p : vec3) : Q :=
  match n with
  | O => s
  | S n' =>
      fbm_loop n' (a * 0.5) (s + a * noise p)
               (mkvec3 (x p * 2.02 + 11.5) (y p * 2.02 + 11.5) (z p * 2.02 + 11.5))
  end.

(** [fbm] (lines 98-106). *)
Definition fbm (p : vec3) : Q := fbm_loop 5 0.5 0.0 p.






(** The reading of [fbm] with exactly doubled frequency: five octaves,
    amplitudes 1/2, 1/4, ..., the sample point doubled and shifted by a
    fixed [offset] from one octave to the next. *)
Fixpoint fbm_doubling_loop (offset : Q) (n : nat) (a s : Q) (p : vec3) : Q :=
  match n with
  | O => s
  | S n' =>
      fbm_doubling_loop offset n' (a * 0.5) (s + a * noise p)
        (mkvec3 (x p * 2 + offset) (y p * 2 + offset) (z p * 2 + offset))
  end.

Definition fbm_doubling (offset : Q) (p : vec3) : Q :=
  fbm_doubling_loop offset 5 0.5 0 p.


End Shader.

(** ** Selective bloom ([src/main.js], lines 153-171 and 377-382) *)

Module Bloom.
Local Open Scope Z_scope.

Inductive Material : Type :=
| MeshBasicMaterial (color : Z)
| MeshStandardMaterial (color : Z)
| ShaderMaterial
| SpriteMaterial
| LineBasicMaterial (color : Z).

Definition BLOOM_LAYER : Z := 1.

(** [darkMaterial] (line 158): unlit ([MeshBasicMaterial]) and black. *)
Definition darkMaterial : Material := MeshBasicMaterial 0x000000.

(** JavaScript's ToInt32 on an integer. *)
Definition to_int32 (n : Z) : Z := (n + 2 ^ 31) mod 2 ^ 32 - 2 ^ 31.

(** [THREE.Layers], a 32-bit mask (library class, transcribed from the
    three.js source):
    [enable(layer)    { this.mask |= 1 << layer | 0; }]
    [isEnabled(layer) { return (this.mask & (1 << layer | 0)) !== 0; }]
    [test(layers)     { return (this.mask & layers.mask) !== 0; }] *)
Record Layers : Type := mkLayers { mask : Z }.

Definition new_Layers : Layers := mkLayers 1.

Definition enable (this : Layers) (layer : Z) : Layers :=
  mkLayers (to_int32 (Z.lor (mask this) (to_int32 (Z.shiftl 1 (layer mod 32))))).

Definition isEnabled (this : Layers) (layer : Z) : bool :=
  negb (Z.land (mask this) (to_int32 (Z.shiftl 1 (layer mod 32))) =? 0).

(** The argument of [test] is whatever value the caller passes; its
    property [mask] is read, and a number has none ([undefined], which
    the operator [&] converts to 0). *)
Inductive JsValue : Type :=
| JsNumber (n : Z)
| JsLayers (l : Layers).

Definition get_mask (v : JsValue) : option Z :=
  match v with
  | JsLayers l => Some (mask l)
  | JsNumber _ => None
  end.

Definition ToInt32 (v : option Z) : Z :=
  match v with
  | Some n => to_int32 n
  | None => 0
  end.

Definition test (this : Layers) (layers : JsValue) : bool :=
  negb (Z.land (to_int32 (mask this)) (ToInt32 (get_mask layers)) =? 0).

(** [addToBloom] (line 156), on the layers of the mesh. *)
Definition addToBloom (l : Layers) : Layers := enable l BLOOM_LAYER.

(** A scene object's own fields: its identity, the flag [isMesh], its
    layers and its material ([None] for [undefined]). *)
Record Object3D : Type := mkObject3D {
  uuid : positive;
  isMesh : bool;
  layers : Layers;
  material : option Material
}.

(** The scene graph: an object and its children. *)
Local Unset Elimination Schemes.
Inductive SceneNode : Type :=
| Node (obj : Object3D) (children : list SceneNode).
Local Set Elimination Schemes.

(** The side table [materials] (line 159). *)
Abbreviation Table := (gmap positive (option Material)).

(** [darkenNonBloom] (lines 160-165). *)
Definition darkenNonBloom (obj : Object3D) (materials : Table) : Object3D * Table :=
  if isMesh obj && negb (test (layers obj) (JsNumber BLOOM_LAYER)) then
    (mkObject3D (uuid obj) (isMesh obj) (layers obj) (Some darkMaterial),
     <[uuid obj := material obj]> materials)
  else (obj, materials).

(** [restoreMaterials] (lines 166-171). *)
Definition restoreMaterials (obj : Object3D) (materials : Table) : Object3D * Table :=
  match materials !! uuid obj with
  | Some saved =>
      (mkObject3D (uuid obj) (isMesh obj) (layers obj) saved,
       delete (uuid obj) materials)
  | None => (obj, materials)
  end.

(** [Object3D.traverse] of three.js:
    [callback(this); for each child: child.traverse(callback)]. *)
Fixpoint traverse (callback : Object3D -> Table -> Object3D * Table)
    (n : SceneNode) (t : Table) : SceneNode * Table :=
  match n with
  | Node obj children =>
      let '(obj', t1) := callback obj t in
      let '(children', t2) :=
        (fix each (cs : list SceneNode) (t : Table) : list SceneNode * Table :=
           match cs with
           | [] => ([], t)
           | c :: rest =>
               let '(c', t') := traverse callback c t in
               let '(rest', t'') := each rest t' in
               (c' :: rest', t'')
           end) children t1 in
      (Node obj' children', t2)
  end.

Definition traverse_each (callback : Object3D -> Table -> Object3D * Table) :
    list SceneNode -> Table -> list SceneNode * Table :=
  fix each (cs : list SceneNode) (t : Table) : list SceneNode * Table :=
    match cs with
    | [] => ([], t)
    | c :: rest =>
        let '(c', t') := traverse callback c t in
        let '(rest', t'') := each rest t' in
        (c' :: rest', t'')
    end.

(** The objects of a scene in the order [traverse] visits them. *)
Fixpoint objects (n : SceneNode) : list Object3D :=
  match n with
  | Node obj children => obj :: flat_map objects children
  end.

Definition uuids (n : SceneNode) : list positive := map uuid (objects n).

(** The guard of [darkenNonBloom], and the object it leaves. *)
Definition darkens (obj : Object3D) : bool :=
  isMesh obj && negb (test (layers obj) (JsNumber BLOOM_LAYER)).

Definition dark (obj : Object3D) : Object3D :=
  if darkens obj
  then mkObject3D (uuid obj) (isMesh obj) (layers obj) (Some darkMaterial)
  else obj.

(** A scene with [f] applied to each of its objects. *)
Fixpoint map_objects (f : Object3D -> Object3D) (n : SceneNode) : SceneNode :=
  match n with
  | Node obj children => Node (f obj) (map (map_objects f) children)
  end.

(** The side table after the materials of the darkened objects among [os]
    are saved into it, and after the entries of [os] are deleted from it. *)
Definition save_all (os : list Object3D) (t : Table) : Table :=
  fold_left (fun t obj => if darkens obj then <[uuid obj := material obj]> t else t) os t.

Definition delete_all (os : list Object3D) (t : Table) : Table :=
  fold_left (fun t obj => delete (uuid obj) t) os t.

Section Frame.

(** [composer.render()] and [renderer.render(scene, camera)] draw the scene
    they are given and either return or throw; they write neither the
    materials of the scene nor the side table.  The identifier [composer]
    has no declaration in this revision of [main.js]. *)
Variable composer_render : SceneNode -> completion unit.
Variable renderer_render : SceneNode -> completion unit.

(** The selective-bloom part of [animate] (lines 377-382): the completion
    of the frame and the scene and side table it leaves. *)
Definition animate_bloom (scene : SceneNode) (materials : Table) :
    completion unit * (SceneNode * Table) :=
  let '(scene1, materials1) := traverse darkenNonBloom scene materials in
  match composer_render scene1 with
  | Throw e => (Throw e, (scene1, materials1))
  | Normal _ =>
      let '(scene2, materials2) := traverse restoreMaterials scene1 materials1 in
      (renderer_render scene2, (scene2, materials2))
  end.

(** [n] frames from a scene and a side table; the loop ends at the first
    frame that throws. *)
Fixpoint frames (n : nat) (scene : SceneNode) (materials : Table) :
    completion unit * (SceneNode * Table) :=
  match n with
  | O => (Normal tt, (scene, materials))
  | S n' =>
      match animate_bloom scene materials with
      | (Normal _, (scene', materials')) => frames n' scene' materials'
      | thrown => thrown
      end
  end.

End Frame.

End Bloom.

(** ** Evaluation of the module ([src/main.js], top level) *)

Module Startup.
Import Kinematics.
Local Open Scope R_scope.
Local Open Scope string_scope.

(** A top-level [const] or [let] binding is uninitialised until evaluation
    reaches its declaration; reading it before that throws a
    ReferenceError. *)
Inductive Binding (A : Type) : Type :=
| Uninitialized
| Initialized (v : A).

Arguments Uninitialized {A}.
Arguments Initialized {A} v.

Definition read {A : Type} (b : Binding A) : completion A :=
  match b with
  | Initialized v => Normal v
  | Uninitialized => Throw (Error "ReferenceError")
  end.

(** Sequencing of statements: the first to throw ends the evaluation. *)
Definition bind {A B : Type} (c : completion A) (k : A -> completion B) : completion B :=
  match c with
  | Normal v => k v
  | Throw e => Throw e
  end.

Notation "'let*' x ':=' c 'in' k" := (bind c (fun x => k))
  (at level 10, x name, c at level 100, k at level 200).

(** The bindings start-up reads and writes: [addToBloom] (line 156),
    [planets] (line 275), [moonAngle] (line 321), and whether
    [renderer.setAnimationLoop(animate)] (line 384) has been reached. *)
Record ModuleState : Type := mkModuleState {
  addToBloom_binding : Binding unit;
  planets_binding : Binding (list Planet);
  moonAngle_binding : Binding R;
  animationLoop : bool
}.

(** A call of [makePlanet] (lines 225-273): the body has no check and no
    [throw]; it calls [addToBloom(mesh)] (line 261) and returns the record. *)
Definition call_makePlanet (st : ModuleState) (cfg : Config) (now rnd : R)
    (p : CatalogEntry) : completion Planet :=
  let* _ := read (addToBloom_binding st) in
  Normal (makePlanet cfg now rnd p).

(** [PLANETS.map(makePlanet)]: one call per entry, in order. *)
Fixpoint map_call_makePlanet (st : ModuleState) (cfg : Config) (now : R)
    (rnds : list R) (catalog : list CatalogEntry) : completion (list Planet) :=
  match catalog with
  | [] => Normal []
  | p :: rest =>
      let* pl := call_makePlanet st cfg now (hd 0 rnds) p in
      let* pls := map_call_makePlanet st cfg now (tl rnds) rest in
      Normal (pl :: pls)
  end.

(** [planets.find(p => p.name === key)]. *)
Definition find_planet (key : string) (pls : list Planet) : option Planet :=
  find (fun pl => String.eqb (name pl) key) pls.

(** The top-level statements that read or write these bindings, in the
    order of the source. *)
Inductive Statement : Type :=
| call_addToBloom_sun
| declare_addToBloom
| declare_planets
| saturn_rings
| earth_moon
| declare_moonAngle
| setAnimationLoop.

Definition exec (cfg : Config) (now : R) (rnds : list R) (rndMoon : R)
    (catalog : list CatalogEntry) (s : Statement) (st : ModuleState) :
    completion ModuleState :=
  match s with
  | call_addToBloom_sun =>
      (* lines 144 and 278: addToBloom(sun) *)
      let* _ := read (addToBloom_binding st) in
      Normal st
  | declare_addToBloom =>
      (* line 156: const addToBloom = (mesh) => ... *)
      Normal (mkModuleState (Initialized tt) (planets_binding st)
                            (moonAngle_binding st) (animationLoop st))
  | declare_planets =>
      (* line 275: const planets = PLANETS.map(makePlanet) *)
      let* pls := map_call_makePlanet st cfg now rnds catalog in
      Normal (mkModuleState (addToBloom_binding st) (Initialized pls)
                            (moonAngle_binding st) (animationLoop st))
  | saturn_rings =>
      (* lines 281-303: if (saturn) { ... addToBloom(ring); } *)
      let* pls := read (planets_binding st) in
      match find_planet "Saturn" pls with
      | Some _ => let* _ := read (addToBloom_binding st) in Normal st
      | None => Normal st
      end
  | earth_moon =>
      (* lines 306-316: earth.mesh.add(moonGroup) reads a property of
         [undefined] when no planet is named Earth; then addToBloom(moon) *)
      let* pls := read (planets_binding st) in
      match find_planet "Earth" pls with
      | Some _ => let* _ := read (addToBloom_binding st) in Normal st
      | None => Throw (Error "TypeError")
      end
  | declare_moonAngle =>
      (* line 321: let moonAngle = Math.random() * Math.PI * 2 *)
      Normal (mkModuleState (addToBloom_binding st) (planets_binding st)
                            (Initialized (rndMoon * PI * 2)) (animationLoop st))
  | setAnimationLoop =>
      (* line 384: renderer.setAnimationLoop(animate) *)
      Normal (mkModuleState (addToBloom_binding st) (planets_binding st)
                            (moonAngle_binding st) true)
  end.

Fixpoint exec_all (cfg : Config) (now : R) (rnds : list R) (rndMoon : R)
    (catalog : list CatalogEntry) (body : list Statement) (st : ModuleState) :
    completion ModuleState :=
  match body with
  | [] => Normal st
  | s :: rest =>
      let* st' := exec cfg now rnds rndMoon catalog s st in
      exec_all cfg now rnds rndMoon catalog rest st'
  end.

(** Lines 144, 156, 275, 278, 281-303, 306-316, 321 and 384.  The other
    top-level statements (renderer, camera, lights, grid, listeners) touch
    none of these bindings. *)
Definition module_body : list Statement :=
  [ call_addToBloom_sun; declare_addToBloom; declare_planets; call_addToBloom_sun;
    saturn_rings; earth_moon; declare_moonAngle; setAnimationLoop ].

Definition before_evaluation : ModuleState :=
  mkModuleState Uninitialized Uninitialized Uninitialized false.

(** Start-up: the evaluation of the module body. *)
Definition startup (cfg : Config) (now : R) (rnds : list R) (rndMoon : R)
    (catalog : list CatalogEntry) : completion ModuleState :=
  exec_all cfg now rnds rndMoon catalog module_body before_evaluation.

End Startup.

(** ** The angle step in binary64 ([src/main.js], lines 241-242 and 360-362) *)

Module Binary64.
Import PrimFloat.
Local Open Scope float_scope.
Local Set Warnings "-inexact-float".

(** [Math.PI]. *)
Definition Math_PI : float := 0x1.921fb54442d18p+1.

Definition daySec : float := 86400.

(** [meanMotionSec] of [makePlanet] (lines 241-242). *)
Definition meanMotionSec (period_days : float) : float :=
  let periodSec := period_days * daySec in
  (2 * Math_PI) / periodSec.

(** [p.theta += p.meanMotionSec * dt * warp] with
    [warp = CONFIG.timeScale * CONFIG.orbitalSpeedBoost] (lines 360-362):
    the new value of [p.theta]. *)
Definition step_theta (theta meanMotion dt timeScale orbitalSpeedBoost : float) : float :=
  let warp := timeScale * orbitalSpeedBoost in
  theta + meanMotion * dt * warp.

End Binary64.

(** ** Runs of the animation loop ([src/main.js], lines 353-373) *)

Module Orbits.
Import Kinematics.
Local Open Scope R_scope.

(** A run of the animation loop: one call of [animate] per clock delta. *)
Fixpoint run (cfg : Config) (deltas : list R) (st : SimState) : SimState :=
  match deltas with
  | [] => st
  | d :: rest => run cfg rest (animate_orbits cfg d st)
  end.

(** The simulated seconds a run covers: the sum of its clamped deltas. *)
Fixpoint clamped_time (deltas : list R) : R :=
  match deltas with
  | [] => 0
  | d :: rest => getClampedDelta d + clamped_time rest
  end.

End Orbits.

(** ** Orbit rings, Saturn's rings and the Moon ([src/main.js], lines 280-331) *)

Module Scene.
Import Kinematics.
Local Open Scope R_scope.

(** [EllipseCurve.getPoint(t)] of three.js for the curve
    [new THREE.EllipseCurve(aX, aY, xRadius, yRadius)]: the remaining
    constructor arguments default to a full counter-clockwise turn from
    angle 0 without rotation, so the point lies at the angle
    [aStartAngle + t * deltaAngle = 0 + t * (2 * PI - 0)]. *)
Definition EllipseCurve_getPoint (aX aY xRadius yRadius t : R) : R * R :=
  let twoPi := PI * 2 in
  let deltaAngle := twoPi - 0 in
  let angle := 0 + t * deltaAngle in
  (aX + xRadius * cos angle, aY + yRadius * sin angle).

(** [Curve.getPoints(divisions)]: the points at [d / divisions] for
    [d = 0, ..., divisions]. *)
Definition getPoints (getPoint : R -> R * R) (divisions : nat) : list (R * R) :=
  map (fun d => getPoint (INR d / INR divisions)) (seq 0 (S divisions)).

(** The vertices of the line loop [makeOrbitRing] adds (lines 324-330). *)
Definition makeOrbitRing (distance : R) : list Vector3 :=
  map (fun p => mkVector3 (fst p) 0.01 (snd p))
      (getPoints (EllipseCurve_getPoint 0 0 distance distance) 256).

(** [PLANETS.forEach(p => makeOrbitRing(p.a_AU * AU))] (line 331). *)
Definition orbitRings (cfg : Config) (catalog : list CatalogEntry) : list (list Vector3) :=
  map (fun p => makeOrbitRing (a_AU p * cfgAU cfg)) catalog.

(** Saturn's rings (lines 283-294): the radii of the ring, [Math.hypot]
    and the texture coordinates written for the vertex at [(a, b)]. *)
Definition ring_inner (radius : R) : R := radius * 1.3.
Definition ring_outer (radius : R) : R := radius * 2.2.

Definition hypot (a b : R) : R := sqrt (a * a + b * b).

Definition ring_uv (radius a b : R) : R * R :=
  let inner := ring_inner radius in
  let outer := ring_outer radius in
  let r := hypot a b in
  ((r - inner) / (outer - inner), 1.0).

(** The Moon (lines 306-316, 372-373): a mesh at local [x = 5.5] in
    [moonGroup], which turns about its y-axis inside Earth's mesh; Earth's
    mesh is placed and turned inside a group that stays at the origin.  All
    scales are 1. *)
Definition moon_world_position (earth : Mesh) (moonGroup_rotation_y : R) : Vector3 :=
  let in_earth :=
    Rev0.applyMatrix (Rev0.makeRotationFromEuler (mkEuler 0 moonGroup_rotation_y 0))
                     (mkVector3 5.5 0 0) in
  let turned := Rev0.applyMatrix (Rev0.makeRotationFromEuler (rotation earth)) in_earth in
  mkVector3 (vx (position earth) + vx turned)
            (vy (position earth) + vy turned)
            (vz (position earth) + vz turned).

End Scene.

(** ** The colour of a fragment ([SUN_FRAGMENT], lines 118-123) *)

Module ShaderColor.
Import Shader.
Local Open Scope Q_scope.




(** The factor the colour is multiplied by (line 123), over the reals:
    [uGlow * (0.8 + 0.2 * sin(t * 6.2831))] with [t = uTime * uSpeed]. *)
Definition glow_factor (glow time speed : R) : R :=
  (glow * (0.8 + 0.2 * sin (time * speed * 6.2831)))%R.

End ShaderColor.

(** * Properties *)

(** ** Orbital kinematics *)

Section KinematicsFacts.
Import Kinematics.
Local Open Scope R_scope.

(** Bounds on [PI] from the series of [atan] at 1/3 and 1/7. *)
Lemma PI_bounds : 3.14159 < PI < 3.1416.
Proof.
  destruct (PI_2_3_7_ineq 3) as [Hlo Hhi].
  unfold sum_f_R0, tg_alt, PI_2_3_7_tg, Ratan_seq in Hlo, Hhi.
  simpl in Hlo, Hhi.
  split; lra.
Qed.

Lemma daySec_pos : 0 < daySec.
Proof. unfold daySec; lra. Qed.

Lemma catalog_period_pos (cfg : Config) (p : CatalogEntry) :
  In p (PLANETS_of cfg) -> 0 < period_days p.
Proof.
  unfold PLANETS_of; simpl.
  intros H; repeat (destruct H as [<- | H]; [simpl; lra |]); destruct H.
Qed.

Lemma meanMotion_pos_of_period (cfg : Config) (now rnd : R) (p : CatalogEntry) :
  0 < period_days p -> 0 < meanMotionSec (makePlanet cfg now rnd p).
Proof.
  intros Hp; simpl.
  apply Rdiv_lt_0_compat.
  - pose proof PI_bounds; lra.
  - apply Rmult_lt_0_compat; [exact Hp | exact daySec_pos].
Qed.

Lemma earth_meanMotion_range (cfg : Config) (now rnd : R) (p : CatalogEntry) :
  period_days p = 365.256 ->
  1.990985e-7 <= meanMotionSec (makePlanet cfg now rnd p) < 1.990995e-7.
Proof.
  intros Hp; simpl. rewrite Hp. unfold daySec.
  pose proof PI_bounds as [Hlo Hhi].
  replace (2 * PI / (365.256 * 86400)) with (PI * (2 / (365.256 * 86400))) by (field; lra).
  split.
  - apply Rle_trans with (3.14159 * (2 / (365.256 * 86400))); [lra | ].
    apply Rmult_le_compat_r; lra.
  - apply Rlt_le_trans with (3.1416 * (2 / (365.256 * 86400))); [ | lra].
    apply Rmult_lt_compat_r; lra.
Qed.

End KinematicsFacts.

Section KinematicsInvariants.
Import Kinematics.
Local Open Scope R_scope.

Lemma Forall2_map_self {A : Type} (f : A -> A) (P : A -> A -> Prop) (l : list A) :
  Forall (fun a => P a (f a)) l -> Forall2 P l (map f l).
Proof.
  induction 1 as [| a l Ha _ IH]; simpl; constructor; assumption.
Qed.

Lemma Forall_map_makePlanet (P : Planet -> Prop) (cfg : Config) (now : R)
    (catalog : list CatalogEntry) :
  (forall rnd p, In p catalog -> P (makePlanet cfg now rnd p)) ->
  forall rnds, Forall P (map_makePlanet cfg now rnds catalog).
Proof.
  induction catalog as [| p rest IH]; intros HP rnds; simpl.
  - constructor.
  - constructor.
    + apply HP; left; reflexivity.
    + apply IH; intros rnd q Hq; apply HP; right; exact Hq.
Qed.

Lemma Forall_map_advance (P : Planet -> Prop) (cfg : Config) (dt : R) (l : list Planet) :
  (forall p, P p -> P (advance_planet cfg dt p)) ->
  Forall P l -> Forall P (map (advance_planet cfg dt) l).
Proof.
  intros Hstep; induction 1 as [| p l Hp _ IH]; simpl; constructor; auto.
Qed.

(** An invariant of single planets that [makePlanet] establishes and a frame
    preserves holds in every reachable state. *)
Lemma reachable_invariant (P : Planet -> Prop) (cfg : Config)
    (catalog : list CatalogEntry) :
  (forall now rnd p, In p catalog -> P (makePlanet cfg now rnd p)) ->
  (forall dt p, P p -> P (advance_planet cfg dt p)) ->
  forall st, reachable cfg catalog st -> Forall P (planets st).
Proof.
  intros Hinit Hstep st Hreach.
  induction Hreach as [now rnds rndMoon | clockDelta st _ IH].
  - simpl.
    apply Forall_map_makePlanet. intros rnd p Hp. apply Hinit. exact Hp.
  - unfold animate_orbits, advance; simpl.
    apply Forall_map_advance; [apply Hstep | exact IH].
Qed.

Lemma reachable_y_zero (cfg : Config) (catalog : list CatalogEntry) (st : SimState) :
  reachable cfg catalog st ->
  Forall (fun p => vy (position (mesh p)) = 0) (planets st).
Proof.
  apply reachable_invariant; intros; reflexivity.
Qed.


(** For a non-negative dividend and a positive divisor, [%] is the
    remainder of the division with a non-negative integer quotient. *)
Lemma js_rem_nonneg (a b : R) :
  0 <= a -> 0 < b ->
  exists k : Z, (0 <= k)%Z /\ js_rem a b = a - IZR k * b /\ 0 <= js_rem a b < b.
Proof.
  intros Ha Hb.
  assert (Hq : 0 <= a / b) by (apply Rle_mult_inv_pos; assumption).
  unfold js_rem, Rtrunc.
  destruct (Rle_lt_dec 0 (a / b)) as [_ | Hneg]; [ | lra].
  destruct (base_Int_part (a / b)) as [Hle Hgt].
  set (k := Int_part (a / b)) in *.
  assert (Hab : a / b * b = a) by (field; lra).
  assert (Hlo : IZR k * b <= a / b * b) by (apply Rmult_le_compat_r; lra).
  assert (Hhi : a / b * b < (IZR k + 1) * b) by (apply Rmult_lt_compat_r; lra).
  rewrite Hab in Hlo, Hhi.
  exists k. split; [ | split; [ring | lra]].
  destruct (Z_lt_le_dec k 0) as [Hk0 | Hk0]; [ | exact Hk0].
  assert (Hk1 : (k <= -1)%Z) by lia.
  apply IZR_le in Hk1. lra.
Qed.

End KinematicsInvariants.

Section KinematicsClaims.
Import Kinematics.
Local Open Scope R_scope.
Local Open Scope string_scope.

Lemma Forall2_map_makePlanet (P : CatalogEntry -> Planet -> Prop) (cfg : Config)
    (now : R) (catalog : list CatalogEntry) :
  (forall rnd p, P p (makePlanet cfg now rnd p)) ->
  forall rnds, Forall2 P catalog (map_makePlanet cfg now rnds catalog).
Proof.
  intros HP; induction catalog as [| p rest IH]; intros rnds; simpl; constructor.
  - apply HP.
  - apply IH.
Qed.

(** C1. In every state the simulation reaches from a catalog, one advance
    step adds [meanMotionSec * dt * timeScale * orbitalSpeedBoost] to each
    planet's angle, moves the Moon's angle in the same way with the Moon's
    mean motion, and puts each planet at
    [(cos angle * distance, 0, sin angle * distance)] for its new angle; the
    y-coordinate of every planet's position is 0 before and after the step. *)
Theorem advance_step_spec (cfg : Config) (catalog : list CatalogEntry)
    (dt : R) (st : SimState) :
  reachable cfg catalog st ->
  Forall2 (fun p p' =>
             theta p' = theta p + meanMotionSec p * dt * timeScale cfg * orbitalSpeedBoost cfg /\
             position (mesh p') =
               mkVector3 (cos (theta p') * distance p') 0 (sin (theta p') * distance p') /\
             name p' = name p /\ distance p' = distance p /\
             meanMotionSec p' = meanMotionSec p)
          (planets st) (planets (advance cfg dt st)) /\
  moonAngle (advance cfg dt st) =
    moonAngle st + moonMeanMotionSec * dt * timeScale cfg * orbitalSpeedBoost cfg /\
  moonGroup_rotation_y (advance cfg dt st) = moonAngle (advance cfg dt st) /\
  Forall (fun p => vy (position (mesh p)) = 0) (planets st) /\
  Forall (fun p => vy (position (mesh p)) = 0) (planets (advance cfg dt st)).
Proof.
  intros Hreach. repeat split.
  - unfold advance; simpl. apply Forall2_map_self.
    apply Forall_forall. intros p _. simpl.
    repeat split; try reflexivity. ring.
  - unfold advance; simpl. ring.
  - apply reachable_y_zero with (1 := Hreach).
  - unfold advance; simpl. apply Forall_map_advance.
    + intros p _; reflexivity.
    + apply reachable_y_zero with (1 := Hreach).
Qed.

Lemma advance_step_spec_witness :
  reachable CONFIG PLANETS (mkSimState 0 (map_makePlanet CONFIG 0 [] PLANETS) (0 * PI * 2) 0) /\
  Forall (fun p => vy (position (mesh p)) = 0)
         (planets (advance CONFIG 0.016
                     (mkSimState 0 (map_makePlanet CONFIG 0 [] PLANETS) (0 * PI * 2) 0))).
Proof.
  split.
  - exact (reach_initial CONFIG PLANETS 0 [] 0).
  - apply (advance_step_spec CONFIG PLANETS 0.016).
    exact (reach_initial CONFIG PLANETS 0 [] 0).
Defined.

(** C2, as stated, fails at the catalog's Earth entry: its mean motion is
    below 1.9911e-7 rad/s, so it does not round to 1.99238e-7 (which is the
    mean motion of a period of 365 days, not 365.256). *)
Lemma earth_meanMotion_not_1_99238 :
  In (mkEntry "Earth" (2.2 * 2.0) 1.000 365.256 0x3ba3ff) PLANETS /\
  meanMotionSec (makePlanet CONFIG 0 0 (mkEntry "Earth" (2.2 * 2.0) 1.000 365.256 0x3ba3ff))
    < 1.9911e-7 /\
  ~ (1.992375e-7 <=
       meanMotionSec (makePlanet CONFIG 0 0 (mkEntry "Earth" (2.2 * 2.0) 1.000 365.256 0x3ba3ff))
     < 1.992385e-7).
Proof.
  pose proof (earth_meanMotion_range CONFIG 0 0
                (mkEntry "Earth" (2.2 * 2.0) 1.000 365.256 0x3ba3ff) eq_refl) as [Hlo Hhi].
  split; [ | split].
  - unfold PLANETS, PLANETS_of; simpl. right; right; left. reflexivity.
  - lra.
  - intros [Hge _]. lra.
Qed.

(** C2, amended. For every body of the catalog the mean motion is
    [2 * PI / (period_days * 86400)] rad/s and strictly positive; for the
    entry of period 365.256 days it is 1.99099e-7 rad/s to six digits. *)
Theorem meanMotion_formula (cfg : Config) (now rnd : R) (p : CatalogEntry) :
  In p (PLANETS_of cfg) ->
  meanMotionSec (makePlanet cfg now rnd p) = 2 * PI / (period_days p * 86400) /\
  0 < meanMotionSec (makePlanet cfg now rnd p) /\
  (period_days p = 365.256 ->
   1.990985e-7 <= meanMotionSec (makePlanet cfg now rnd p) < 1.990995e-7).
Proof.
  intros Hp. split; [reflexivity | split].
  - apply meanMotion_pos_of_period. apply (catalog_period_pos cfg). exact Hp.
  - apply earth_meanMotion_range.
Qed.

Lemma meanMotion_formula_witness :
  In (mkEntry "Earth" (2.2 * 2.0) 1.000 365.256 0x3ba3ff) (PLANETS_of CONFIG) /\
  0 < meanMotionSec (makePlanet CONFIG 0 0 (mkEntry "Earth" (2.2 * 2.0) 1.000 365.256 0x3ba3ff)).
Proof.
  assert (H : In (mkEntry "Earth" (2.2 * 2.0) 1.000 365.256 0x3ba3ff) (PLANETS_of CONFIG)).
  { unfold PLANETS_of; simpl. right; right; left. reflexivity. }
  split; [exact H | ].
  exact (proj1 (proj2 (meanMotion_formula CONFIG 0 0 _ H))).
Defined.

(** C6. For every body of the catalog, the mean motion [makePlanet] derives
    is [2 * PI / periodSeconds] and the angle it starts from is
    [2 * PI / periodSeconds * (epochSeconds % periodSeconds)] plus the body's
    entry of [phaseOffsets], with [epochSeconds = now / 1000] the clock
    reading in seconds and [periodSeconds = period_days * 86400]; the
    initial position is [(cos angle0 * distance, 0, sin angle0 * distance)]
    with [distance = a_AU * AU]; and for a non-negative clock reading the
    remainder is the mathematical one, in [0, periodSeconds) and a whole
    number of periods away from [epochSeconds]. *)
Theorem initial_angle_from_epoch (cfg : Config) (now rnd : R) (p : CatalogEntry) :
  In p (PLANETS_of cfg) ->
  exists phaseOffset,
    property phaseOffsets (e_name p) = Some phaseOffset /\
    meanMotionSec (makePlanet cfg now rnd p) = 2 * PI / (period_days p * 86400) /\
    theta (makePlanet cfg now rnd p) =
      2 * PI / (period_days p * 86400)
        * js_rem (now / 1000) (period_days p * 86400) + phaseOffset /\
    position (mesh (makePlanet cfg now rnd p)) =
      mkVector3 (cos (theta (makePlanet cfg now rnd p)) * (a_AU p * cfgAU cfg))
                0
                (sin (theta (makePlanet cfg now rnd p)) * (a_AU p * cfgAU cfg)) /\
    distance (makePlanet cfg now rnd p) = a_AU p * cfgAU cfg /\
    (0 <= now ->
     exists k : Z,
       (0 <= k)%Z /\
       js_rem (now / 1000) (period_days p * 86400)
         = now / 1000 - IZR k * (period_days p * 86400) /\
       0 <= js_rem (now / 1000) (period_days p * 86400) < period_days p * 86400).
Proof.
  intros Hp.
  assert (Hoff : exists phaseOffset,
             property phaseOffsets (e_name p) = Some phaseOffset).
  { unfold PLANETS_of in Hp; simpl in Hp.
    repeat (destruct Hp as [<- | Hp]; [simpl; eexists; reflexivity | ]).
    destruct Hp. }
  destruct Hoff as [off Hoff]. exists off.
  split; [exact Hoff | ]. split; [reflexivity | ]. split.
  - simpl. unfold property_or_0. rewrite Hoff. reflexivity.
  - split; [reflexivity | ]. split; [reflexivity | ].
    intros Hnow. apply js_rem_nonneg.
    + lra.
    + pose proof (catalog_period_pos cfg p Hp). lra.
Qed.

(** At a clock reading of 5000 ms the Earth starts 5 s into its period. *)
Lemma initial_angle_from_epoch_witness :
  In (mkEntry "Earth" (2.2 * 2.0) 1.000 365.256 0x3ba3ff) (PLANETS_of CONFIG) /\
  0 <= 5000 /\
  js_rem (5000 / 1000) (365.256 * 86400) = 5 /\
  theta (makePlanet CONFIG 5000 0 (mkEntry "Earth" (2.2 * 2.0) 1.000 365.256 0x3ba3ff)) =
    2 * PI / (365.256 * 86400) * 5 + 2.1 /\
  position (mesh (makePlanet CONFIG 5000 0 (mkEntry "Earth" (2.2 * 2.0) 1.000 365.256 0x3ba3ff))) =
    mkVector3 (cos (2 * PI / (365.256 * 86400) * 5 + 2.1) * (1.000 * 60))
              0
              (sin (2 * PI / (365.256 * 86400) * 5 + 2.1) * (1.000 * 60)).
Proof.
  assert (H : In (mkEntry "Earth" (2.2 * 2.0) 1.000 365.256 0x3ba3ff) (PLANETS_of CONFIG)).
  { unfold PLANETS_of; simpl. right; right; left. reflexivity. }
  assert (Hnow : 0 <= 5000) by lra.
  destruct (initial_angle_from_epoch CONFIG 5000 0 _ H)
    as [off [Hoff [_ [Htheta [Hpos [_ Hrem]]]]]].
  simpl in Hoff. injection Hoff as <-.
  destruct (Hrem Hnow) as [k [Hk [Heq Hrange]]].
  simpl period_days in *. simpl a_AU in *. simpl cfgAU in *.
  assert (Hk0 : k = 0%Z).
  { destruct (Z.eq_dec k 0%Z) as [-> | Hne]; [reflexivity | exfalso].
    assert (H1 : (1 <= k)%Z) by lia.
    apply IZR_le in H1. rewrite Heq in Hrange. nra. }
  subst k.
  assert (Hrem5 : js_rem (5000 / 1000) (365.256 * 86400) = 5) by (rewrite Heq; lra).
  split; [exact H | split; [exact Hnow | split; [exact Hrem5 | ]]].
  rewrite Hrem5 in Htheta.
  split; [exact Htheta | ].
  rewrite Hpos, Htheta. reflexivity.
Defined.



End KinematicsClaims.

(** ** The angle step in binary64 *)

Section Binary64Claims.
Import PrimFloat Binary64.
Local Open Scope float_scope.
Local Set Warnings "-inexact-float".


(** With the shipped [timeScale = 1.0] the same step does increase the
    angle in binary64, and with the tiny scale it still does not decrease
    it. *)
Lemma shipped_step_increases_angle :
  (2.1 <? step_theta 2.1 (meanMotionSec 365.256) 0.016 1.0 1000000) = true /\
  (2.1 <=? step_theta 2.1 (meanMotionSec 365.256) 0.016 1e-14 1000000) = true.
Proof. split; vm_compute; reflexivity. Qed.

End Binary64Claims.

(** ** Start-up and the catalog *)

Section StartupClaims.
Import Kinematics Startup.
Local Open Scope R_scope.
Local Open Scope string_scope.

(** With [addToBloom] initialised, [PLANETS.map(makePlanet)] returns the
    planets of [map_makePlanet], whatever the entries. *)
Lemma map_call_makePlanet_initialized (st : ModuleState) (cfg : Config) (now : R)
    (rnds : list R) (catalog : list CatalogEntry) :
  addToBloom_binding st = Initialized tt ->
  map_call_makePlanet st cfg now rnds catalog
  = Normal (map_makePlanet cfg now rnds catalog).
Proof.
  intros Hb. revert rnds.
  induction catalog as [| p rest IH]; intros rnds; simpl; [reflexivity | ].
  unfold call_makePlanet. rewrite Hb. simpl. rewrite IH. reflexivity.
Qed.

(** [PLANETS.map(makePlanet)] returns or throws a ReferenceError. *)
Lemma map_call_makePlanet_cases (st : ModuleState) (cfg : Config) (now : R)
    (rnds : list R) (catalog : list CatalogEntry) :
  (exists pls, map_call_makePlanet st cfg now rnds catalog = Normal pls) \/
  map_call_makePlanet st cfg now rnds catalog = Throw (Error "ReferenceError").
Proof.
  revert rnds. induction catalog as [| p rest IH]; intros rnds; simpl.
  - left. eexists. reflexivity.
  - unfold call_makePlanet.
    destruct (addToBloom_binding st) as [| []]; simpl; [right; reflexivity | ].
    destruct (IH (tl rnds)) as [[pls ->] | ->]; simpl.
    + left. eexists. reflexivity.
    + right. reflexivity.
Qed.

(** No top-level statement throws a ConfigurationError, in any state. *)
Lemma exec_no_ConfigurationError (cfg : Config) (now : R) (rnds : list R) (rndMoon : R)
    (catalog : list CatalogEntry) (s : Statement) (st : ModuleState) :
  exec cfg now rnds rndMoon catalog s st <> Throw (Error "ConfigurationError").
Proof.
  destruct s; simpl; try discriminate.
  - destruct (addToBloom_binding st); simpl; discriminate.
  - destruct (map_call_makePlanet_cases st cfg now rnds catalog) as [[pls ->] | ->];
      simpl; discriminate.
  - destruct (planets_binding st) as [| pls]; simpl; [discriminate | ].
    destruct (find_planet "Saturn" pls); [ | discriminate].
    destruct (addToBloom_binding st); simpl; discriminate.
  - destruct (planets_binding st) as [| pls]; simpl; [discriminate | ].
    destruct (find_planet "Earth" pls); [ | discriminate].
    destruct (addToBloom_binding st); simpl; discriminate.
Qed.

Lemma exec_all_no_ConfigurationError (cfg : Config) (now : R) (rnds : list R)
    (rndMoon : R) (catalog : list CatalogEntry) (body : list Statement)
    (st : ModuleState) :
  exec_all cfg now rnds rndMoon catalog body st <> Throw (Error "ConfigurationError").
Proof.
  revert st. induction body as [| s rest IH]; intros st; simpl; [discriminate | ].
  pose proof (exec_no_ConfigurationError cfg now rnds rndMoon catalog s st) as Hs.
  destruct (exec cfg now rnds rndMoon catalog s st) as [st' | e]; simpl.
  - apply IH.
  - exact Hs.
Qed.

(** The statements from line 156 on run to the end exactly for the
    catalogs with an entry named Earth, and then leave the planets of
    [map_makePlanet] and the animation loop set. *)
Lemma statements_from_line_156 (cfg : Config) (now : R) (rnds : list R) (rndMoon : R)
    (catalog : list CatalogEntry) :
  match find_planet "Earth" (map_makePlanet cfg now rnds catalog) with
  | Some _ =>
      exec_all cfg now rnds rndMoon catalog (tl module_body) before_evaluation
      = Normal (mkModuleState (Initialized tt)
                              (Initialized (map_makePlanet cfg now rnds catalog))
                              (Initialized (rndMoon * PI * 2)) true)
  | None =>
      exec_all cfg now rnds rndMoon catalog (tl module_body) before_evaluation
      = Throw (Error "TypeError")
  end.
Proof.
  unfold module_body, before_evaluation. cbn [tl exec_all exec bind].
  cbn [addToBloom_binding planets_binding moonAngle_binding animationLoop].
  rewrite map_call_makePlanet_initialized by reflexivity.
  cbn [bind read addToBloom_binding planets_binding moonAngle_binding animationLoop].
  destruct (find_planet "Saturn" (map_makePlanet cfg now rnds catalog));
    cbn [bind read addToBloom_binding planets_binding moonAngle_binding animationLoop];
    destruct (find_planet "Earth" (map_makePlanet cfg now rnds catalog));
    cbn [bind read addToBloom_binding planets_binding moonAngle_binding animationLoop];
    reflexivity.
Qed.

(** C5, as stated, fails. For a catalog whose one entry has a negative
    period and a negative semi-major axis, start-up does not fail with a
    ConfigurationError: it ends with the ReferenceError of line 144, as it
    does for the shipped catalog, whose entries are all positive; and the
    call of [makePlanet] on that entry, with [addToBloom] initialised,
    returns a planet. *)
Lemma startup_raises_no_ConfigurationError :
  period_days (mkEntry "Earth" 1 (-1) (-1) 0) <= 0 /\
  a_AU (mkEntry "Earth" 1 (-1) (-1) 0) <= 0 /\
  startup CONFIG 0 [] 0 [mkEntry "Earth" 1 (-1) (-1) 0]
    <> Throw (Error "ConfigurationError") /\
  startup CONFIG 0 [] 0 [mkEntry "Earth" 1 (-1) (-1) 0]
    = Throw (Error "ReferenceError") /\
  startup CONFIG 0 [] 0 PLANETS = Throw (Error "ReferenceError") /\
  call_makePlanet (mkModuleState (Initialized tt) Uninitialized Uninitialized false)
                  CONFIG 0 0 (mkEntry "Earth" 1 (-1) (-1) 0)
    = Normal (makePlanet CONFIG 0 0 (mkEntry "Earth" 1 (-1) (-1) 0)).
Proof.
  simpl period_days. simpl a_AU.
  split; [lra | split; [lra | split; [ | split; [ | split]]]].
  - apply exec_all_no_ConfigurationError.
  - reflexivity.
  - reflexivity.
  - reflexivity.
Qed.

(** C5, amended. The code validates no catalog entry. For every catalog,
    no statement of start-up throws a ConfigurationError, whatever the state
    it runs in; once [addToBloom] is initialised, [PLANETS.map(makePlanet)]
    returns one planet per entry, whose name is the entry's and whose
    distance is [a_AU * AU]; an entry with a negative period yields a
    negative mean motion, and an entry with a non-positive semi-major axis
    (for a positive AU scale) a non-positive distance. *)
Theorem makePlanet_performs_no_validation (cfg : Config) (now : R) (rnds : list R)
    (rndMoon : R) (catalog : list CatalogEntry) :
  startup cfg now rnds rndMoon catalog <> Throw (Error "ConfigurationError") /\
  (forall body st,
     exec_all cfg now rnds rndMoon catalog body st
     <> Throw (Error "ConfigurationError")) /\
  (forall st,
     addToBloom_binding st = Initialized tt ->
     exists pls,
       map_call_makePlanet st cfg now rnds catalog = Normal pls /\
       Forall2 (fun p pl =>
                  name pl = e_name p /\
                  distance pl = a_AU p * cfgAU cfg /\
                  (period_days p < 0 -> meanMotionSec pl < 0) /\
                  (a_AU p <= 0 -> 0 < cfgAU cfg -> distance pl <= 0))
               catalog pls).
Proof.
  split; [apply exec_all_no_ConfigurationError | ].
  split; [intros body st; apply exec_all_no_ConfigurationError | ].
  intros st Hb. exists (map_makePlanet cfg now rnds catalog).
  split; [apply map_call_makePlanet_initialized; exact Hb | ].
  apply Forall2_map_makePlanet. intros rnd p. simpl.
  split; [reflexivity | split; [reflexivity | split]].
  - intros Hneg.
    assert (Hden : period_days p * daySec < 0).
    { pose proof daySec_pos. nra. }
    pose proof PI_bounds as [Hpi _].
    unfold Rdiv.
    assert (Hinv : / (period_days p * daySec) < 0) by (apply Rinv_lt_0_compat; exact Hden).
    nra.
  - intros Ha Hau. nra.
Qed.

Lemma makePlanet_performs_no_validation_witness :
  addToBloom_binding (mkModuleState (Initialized tt) Uninitialized Uninitialized false)
    = Initialized tt /\
  exists pls,
    map_call_makePlanet (mkModuleState (Initialized tt) Uninitialized Uninitialized false)
                        CONFIG 0 [] [mkEntry "Earth" 1 (-1) (-1) 0] = Normal pls /\
    Forall2 (fun p pl => meanMotionSec pl < 0 /\ distance pl <= 0)
            [mkEntry "Earth" 1 (-1) (-1) 0] pls.
Proof.
  split; [reflexivity | ].
  destruct (proj2 (proj2 (makePlanet_performs_no_validation
                            CONFIG 0 [] 0 [mkEntry "Earth" 1 (-1) (-1) 0]))
              (mkModuleState (Initialized tt) Uninitialized Uninitialized false)
              eq_refl)
    as [pls [Hpls Hall]].
  exists pls. split; [exact Hpls | ].
  inversion Hall as [| p pl l l' [_ [_ [Hmm Hd]]] Hrest]; subst.
  inversion Hrest; subst.
  constructor; [ | constructor].
  split.
  - apply Hmm. simpl. lra.
  - apply Hd; simpl; lra.
Defined.

End StartupClaims.

(** ** The noise field and the lava value *)

Section ShaderFacts.
Import Shader.
Local Open Scope Q_scope.












End ShaderFacts.

Section ShaderClaims.
Import Shader.
Local Open Scope Q_scope.

(** C8, as stated, fails: at the origin [fbm] differs from the sum of five
    octaves whose sample point is exactly doubled (and shifted by the
    shader's own offset 11.5) from one octave to the next. *)
Lemma fbm_not_doubling :
  ~ (fbm (mkvec3 0 0 0) == fbm_doubling 11.5 (mkvec3 0 0 0)).
Proof.
  apply (Qeq_bool_neq (fbm (mkvec3 0 0 0)) (fbm_doubling 11.5 (mkvec3 0 0 0))).
  vm_compute. reflexivity.
Qed.

(** C8, amended. [fbm] sums exactly five octaves of [noise] with the
    amplitudes 0.5, 0.25, 0.125, 0.0625 and 0.03125; from one octave to the
    next the sample point is multiplied by 2.02 and shifted by the fixed
    offset 11.5 in each coordinate. *)
Theorem fbm_five_octaves (p0 : vec3) :
  let next := fun p => mkvec3 (x p * 2.02 + 11.5) (y p * 2.02 + 11.5) (z p * 2.02 + 11.5) in
  let p1 := next p0 in
  let p2 := next p1 in
  let p3 := next p2 in
  let p4 := next p3 in
  fbm p0 == 0.5 * noise p0 + 0.25 * noise p1 + 0.125 * noise p2
            + 0.0625 * noise p3 + 0.03125 * noise p4.
Proof.
  intros next p1 p2 p3 p4. unfold fbm. cbn [fbm_loop].
  fold (next p0). fold p1. fold (next p1). fold p2. fold (next p2). fold p3.
  fold (next p3). fold p4.
  ring.
Qed.



End ShaderClaims.

(** ** The two revisions' placement of a planet *)

Section PlacementClaims.
Local Open Scope R_scope.
Local Open Scope string_scope.

(** In the earlier revision a planet's group turns about the y-axis only
    and its mesh stays on the group's x-axis. *)
Lemma rev0_shape (pl : Rev0.Planet) :
  Rev0.reachable pl ->
  ex (Rev0.group_rotation pl) = 0 /\ ez (Rev0.group_rotation pl) = 0 /\
  vy (Rev0.mesh_position pl) = 0 /\ vz (Rev0.mesh_position pl) = 0.
Proof.
  induction 1 as [now rnd p | timeScale dt pl _ IH]; simpl.
  - repeat split; reflexivity.
  - exact IH.
Qed.

Lemma rotate_y_x_axis (angle d : R) :
  Rev0.applyMatrix (Rev0.makeRotationFromEuler (mkEuler 0 angle 0)) (mkVector3 d 0 0)
  = mkVector3 (cos angle * d) 0 (- (sin angle * d)).
Proof.
  unfold Rev0.applyMatrix, Rev0.makeRotationFromEuler; simpl.
  rewrite cos_0, sin_0. f_equal; ring.
Qed.

(** C10, as stated, fails: for the angle [PI / 2] and the distance 1 the
    earlier revision puts the planet at z = -1 and the current one at
    z = 1. *)
Lemma rev0_placement_differs :
  Rev0.worldPosition
    (Rev0.mkPlanet "Earth" (mkEuler 0 (PI / 2) 0) (mkVector3 1 0 0) (mkEuler 0 0 0) 0 0)
  = mkVector3 0 0 (-1) /\
  Kinematics.position (Kinematics.mesh
    (Kinematics.advance_planet Kinematics.CONFIG 0
       (Kinematics.mkPlanet "Earth" (Kinematics.mkMesh (mkVector3 1 0 0) (mkEuler 0 0 0))
                            1 1 0 (PI / 2) 0)))
  = mkVector3 0 0 1 /\
  Rev0.worldPosition
    (Rev0.mkPlanet "Earth" (mkEuler 0 (PI / 2) 0) (mkVector3 1 0 0) (mkEuler 0 0 0) 0 0)
  <> Kinematics.position (Kinematics.mesh
       (Kinematics.advance_planet Kinematics.CONFIG 0
          (Kinematics.mkPlanet "Earth" (Kinematics.mkMesh (mkVector3 1 0 0) (mkEuler 0 0 0))
                               1 1 0 (PI / 2) 0))).
Proof.
  assert (Hold : Rev0.worldPosition
            (Rev0.mkPlanet "Earth" (mkEuler 0 (PI / 2) 0) (mkVector3 1 0 0) (mkEuler 0 0 0) 0 0)
          = mkVector3 0 0 (-1)).
  { unfold Rev0.worldPosition; simpl Rev0.group_rotation; simpl Rev0.mesh_position.
    rewrite rotate_y_x_axis, cos_PI2, sin_PI2. f_equal; ring. }
  assert (Hnew : Kinematics.position (Kinematics.mesh
            (Kinematics.advance_planet Kinematics.CONFIG 0
               (Kinematics.mkPlanet "Earth"
                  (Kinematics.mkMesh (mkVector3 1 0 0) (mkEuler 0 0 0)) 1 1 0 (PI / 2) 0)))
          = mkVector3 0 0 1).
  { simpl.
    replace (PI / 2 + 0 * 0 * (1.0 * 1000000)) with (PI / 2) by ring.
    rewrite cos_PI2, sin_PI2. f_equal; ring. }
  split; [exact Hold | split; [exact Hnew | ]].
  rewrite Hold, Hnew. intros H. apply (f_equal vz) in H. simpl in H. lra.
Qed.

(** C10, amended. For a planet of the earlier revision with group angle
    [angle] and mesh distance [d], the world position is
    [(cos angle * d, 0, - (sin angle * d))]: the current revision's
    placement for the angle [- angle], that is its placement for [angle]
    mirrored in the plane z = 0.  The two placements agree exactly when
    [sin angle * d = 0]. *)
Theorem rev0_world_position_mirrors (pl : Rev0.Planet) :
  Rev0.reachable pl ->
  Rev0.worldPosition pl
  = mkVector3 (cos (ey (Rev0.group_rotation pl)) * vx (Rev0.mesh_position pl)) 0
              (- (sin (ey (Rev0.group_rotation pl)) * vx (Rev0.mesh_position pl))) /\
  Rev0.worldPosition pl
  = mkVector3 (cos (- ey (Rev0.group_rotation pl)) * vx (Rev0.mesh_position pl)) 0
              (sin (- ey (Rev0.group_rotation pl)) * vx (Rev0.mesh_position pl)) /\
  (forall (cfg : Kinematics.Config) (dt : R) (p : Kinematics.Planet),
     Kinematics.theta (Kinematics.advance_planet cfg dt p) = ey (Rev0.group_rotation pl) ->
     Kinematics.distance p = vx (Rev0.mesh_position pl) ->
     Kinematics.position (Kinematics.mesh (Kinematics.advance_planet cfg dt p))
     = mkVector3 (vx (Rev0.worldPosition pl)) (vy (Rev0.worldPosition pl))
                 (- vz (Rev0.worldPosition pl))) /\
  (Rev0.worldPosition pl
   = mkVector3 (cos (ey (Rev0.group_rotation pl)) * vx (Rev0.mesh_position pl)) 0
               (sin (ey (Rev0.group_rotation pl)) * vx (Rev0.mesh_position pl))
   <-> sin (ey (Rev0.group_rotation pl)) * vx (Rev0.mesh_position pl) = 0).
Proof.
  intros Hreach.
  destruct (rev0_shape pl Hreach) as [Hx [Hz [Hpy Hpz]]].
  assert (Hworld : Rev0.worldPosition pl
            = mkVector3 (cos (ey (Rev0.group_rotation pl)) * vx (Rev0.mesh_position pl)) 0
                        (- (sin (ey (Rev0.group_rotation pl)) * vx (Rev0.mesh_position pl)))).
  { unfold Rev0.worldPosition.
    destruct (Rev0.group_rotation pl) as [rx ry rz].
    destruct (Rev0.mesh_position pl) as [px py pz].
    simpl in *. subst. apply rotate_y_x_axis. }
  split; [exact Hworld | split; [ | split]].
  - rewrite Hworld, cos_neg, sin_neg. f_equal; ring.
  - intros cfg dt p Htheta Hdist. rewrite Hworld. simpl.
    simpl in Htheta. rewrite Htheta, Hdist. f_equal; ring.
  - rewrite Hworld. split.
    + intros H. apply (f_equal vz) in H. simpl in H. lra.
    + intros H. f_equal. lra.
Qed.

Lemma rev0_world_position_mirrors_witness :
  Rev0.reachable (Rev0.makePlanet 0 0
     (Kinematics.mkEntry "Earth" 2.2 1.000 365.256 0x3ba3ff)) /\
  vy (Rev0.worldPosition (Rev0.makePlanet 0 0
     (Kinematics.mkEntry "Earth" 2.2 1.000 365.256 0x3ba3ff))) = 0.
Proof.
  assert (H : Rev0.reachable (Rev0.makePlanet 0 0
                (Kinematics.mkEntry "Earth" 2.2 1.000 365.256 0x3ba3ff)))
    by apply Rev0.reach_make.
  split; [exact H | ].
  exact (f_equal vy (proj1 (rev0_world_position_mirrors _ H))).
Defined.

End PlacementClaims.

(** ** Selective bloom *)

Section BloomFacts.
Import Bloom.

Lemma SceneNode_ind (P : SceneNode -> Prop) :
  (forall obj children, Forall P children -> P (Node obj children)) ->
  forall n, P n.
Proof.
  intros Hnode. fix IH 1. intros [obj children]. apply Hnode.
  induction children as [| c rest IHrest]; constructor; [apply IH | exact IHrest].
Qed.

Lemma traverse_Node (cb : Object3D -> Table -> Object3D * Table)
    (obj : Object3D) (children : list SceneNode) (t : Table) :
  traverse cb (Node obj children) t =
  let '(obj', t1) := cb obj t in
  let '(children', t2) := traverse_each cb children t1 in
  (Node obj' children', t2).
Proof. reflexivity. Qed.

Lemma traverse_each_cons (cb : Object3D -> Table -> Object3D * Table)
    (c : SceneNode) (rest : list SceneNode) (t : Table) :
  traverse_each cb (c :: rest) t =
  let '(c', t') := traverse cb c t in
  let '(rest', t'') := traverse_each cb rest t' in
  (c' :: rest', t'').
Proof. reflexivity. Qed.

(** [layers.test] applied to a layer number finds no mask in it. *)
Lemma test_number (l : Layers) (n : Z) : test l (JsNumber n) = false.
Proof. unfold test; simpl. rewrite Z.land_0_r. reflexivity. Qed.

Lemma darkens_isMesh (obj : Object3D) : darkens obj = isMesh obj.
Proof. unfold darkens. rewrite test_number. apply andb_true_r. Qed.

Lemma darkenNonBloom_eq (obj : Object3D) (t : Table) :
  darkenNonBloom obj t = (dark obj, save_all [obj] t).
Proof.
  unfold darkenNonBloom, dark, save_all; simpl. fold (darkens obj).
  destruct (darkens obj); reflexivity.
Qed.

Lemma save_all_app (os1 os2 : list Object3D) (t : Table) :
  save_all (os1 ++ os2) t = save_all os2 (save_all os1 t).
Proof. apply fold_left_app. Qed.

Lemma delete_all_app (os1 os2 : list Object3D) (t : Table) :
  delete_all (os1 ++ os2) t = delete_all os2 (delete_all os1 t).
Proof. apply fold_left_app. Qed.

Lemma objects_map_objects (f : Object3D -> Object3D) (n : SceneNode) :
  objects (map_objects f n) = map f (objects n).
Proof.
  induction n as [obj children IH] using SceneNode_ind. simpl. f_equal.
  induction IH as [| c rest Hc _ IHrest]; simpl; [reflexivity | ].
  rewrite map_app, Hc, IHrest. reflexivity.
Qed.

(** The extract pass leaves the scene with its objects darkened and the
    side table with their materials saved. *)
Lemma traverse_darken (n : SceneNode) :
  forall t, traverse darkenNonBloom n t = (map_objects dark n, save_all (objects n) t).
Proof.
  induction n as [obj children IH] using SceneNode_ind. intros t.
  rewrite traverse_Node, darkenNonBloom_eq.
  assert (Heach : forall t', traverse_each darkenNonBloom children t'
            = (map (map_objects dark) children, save_all (flat_map objects children) t')).
  { induction IH as [| c rest Hc _ IHrest]; intros t'; [reflexivity | ].
    rewrite traverse_each_cons, Hc, IHrest. simpl. rewrite save_all_app. reflexivity. }
  rewrite Heach. reflexivity.
Qed.

Lemma lookup_save_all_notin (os : list Object3D) (t : Table) (k : positive) :
  k ∉ map uuid os -> save_all os t !! k = t !! k.
Proof.
  revert t. induction os as [| a r IH]; intros t Hk; [reflexivity | ].
  simpl in Hk. apply not_elem_of_cons in Hk as [Hka Hkr].
  change (save_all (a :: r) t) with
    (save_all r (if darkens a then <[uuid a := material a]> t else t)).
  rewrite IH by exact Hkr.
  destruct (darkens a); [ | reflexivity].
  apply lookup_insert_ne. congruence.
Qed.

Lemma lookup_save_all_in (os : list Object3D) (t : Table) (o : Object3D) :
  NoDup (map uuid os) -> o ∈ os ->
  save_all os t !! uuid o = if darkens o then Some (material o) else t !! uuid o.
Proof.
  revert t. induction os as [| a r IH]; intros t Hnd Ho.
  - apply elem_of_nil in Ho. destruct Ho.
  - simpl in Hnd. apply NoDup_cons in Hnd as [Ha Hr].
    change (save_all (a :: r) t) with
      (save_all r (if darkens a then <[uuid a := material a]> t else t)).
    apply elem_of_cons in Ho as [-> | Ho].
    + rewrite lookup_save_all_notin by exact Ha.
      destruct (darkens a); [apply lookup_insert_eq | reflexivity].
    + rewrite IH by assumption.
      destruct (darkens o); [reflexivity | ].
      destruct (darkens a); [ | reflexivity].
      apply lookup_insert_ne. intros Heq. apply Ha. rewrite Heq.
      apply (list_elem_of_fmap_2 uuid). exact Ho.
Qed.

Lemma lookup_delete_all (os : list Object3D) (t : Table) (k : positive) :
  delete_all os t !! k = if decide (k ∈ map uuid os) then None else t !! k.
Proof.
  revert t. induction os as [| a r IH]; intros t.
  - simpl. destruct (decide (k ∈ [])) as [H | _]; [ | reflexivity].
    apply elem_of_nil in H. destruct H.
  - change (delete_all (a :: r) t) with (delete_all r (delete (uuid a) t)).
    rewrite IH. simpl.
    destruct (decide (k ∈ map uuid r)) as [Hr | Hr].
    + rewrite decide_True; [reflexivity | right; exact Hr].
    + destruct (decide (k = uuid a)) as [-> | Hne].
      * rewrite decide_True by left. apply lookup_delete_eq.
      * rewrite decide_False.
        -- apply lookup_delete_ne. congruence.
        -- intros H. apply elem_of_cons in H as [H | H]; contradiction.
Qed.

Lemma restore_dark (o : Object3D) (M : Table) :
  M !! uuid o = (if darkens o then Some (material o) else None) ->
  restoreMaterials (dark o) M = (o, delete (uuid o) M).
Proof.
  intros HM. unfold restoreMaterials, dark.
  destruct (darkens o); simpl; rewrite HM.
  - destruct o; reflexivity.
  - rewrite delete_id by exact HM. reflexivity.
Qed.

(** The restore pass undoes the extract pass when the side table holds
    the saved material of exactly the darkened objects of the scene. *)
Lemma traverse_restore (n : SceneNode) :
  forall M : Table,
    NoDup (uuids n) ->
    (forall o, o ∈ objects n ->
               M !! uuid o = if darkens o then Some (material o) else None) ->
    traverse restoreMaterials (map_objects dark n) M = (n, delete_all (objects n) M).
Proof.
  induction n as [obj children IH] using SceneNode_ind. intros M Hnd HM.
  unfold uuids in Hnd. simpl in Hnd. apply NoDup_cons in Hnd as [Hobj Hch].
  simpl map_objects. rewrite traverse_Node.
  rewrite restore_dark by (apply HM; simpl; left).
  assert (Heach : forall M' : Table,
            NoDup (map uuid (flat_map objects children)) ->
            (forall o, o ∈ flat_map objects children ->
                       M' !! uuid o = if darkens o then Some (material o) else None) ->
            traverse_each restoreMaterials (map (map_objects dark) children) M'
            = (children, delete_all (flat_map objects children) M')).
  { clear Hobj Hch HM M.
    induction IH as [| c rest Hc _ IHrest]; intros M' Hnd HM; [reflexivity | ].
    simpl in Hnd. rewrite map_app in Hnd.
    apply NoDup_app in Hnd as [Hc_nd [Hdisj Hrest_nd]].
    simpl map. rewrite traverse_each_cons.
    rewrite Hc; [ | exact Hc_nd | intros o Ho; apply HM; simpl; apply elem_of_app; left; exact Ho].
    rewrite IHrest; [ | exact Hrest_nd | ].
    - simpl. rewrite delete_all_app. reflexivity.
    - intros o Ho. rewrite lookup_delete_all.
      rewrite decide_False.
      + apply HM. simpl. apply elem_of_app. right. exact Ho.
      + intros Hin. apply (Hdisj (uuid o) Hin).
        apply (list_elem_of_fmap_2 uuid). exact Ho. }
  rewrite Heach; [reflexivity | exact Hch | ].
  intros o Ho. rewrite lookup_delete_ne.
  - apply HM. simpl. right. exact Ho.
  - intros Heq. apply Hobj. rewrite Heq. apply (list_elem_of_fmap_2 uuid). exact Ho.
Qed.

Lemma delete_all_save_all (os : list Object3D) :
  delete_all os (save_all os ∅) = ∅.
Proof.
  apply map_eq. intros k. rewrite lookup_delete_all.
  destruct (decide (k ∈ map uuid os)) as [Hk | Hk].
  - symmetry. apply lookup_empty.
  - apply lookup_save_all_notin. exact Hk.
Qed.

(** Extract pass, then restore pass, from an empty side table. *)
Lemma darken_then_restore (scene : SceneNode) :
  NoDup (uuids scene) ->
  traverse restoreMaterials (map_objects dark scene) (save_all (objects scene) ∅)
  = (scene, ∅).
Proof.
  intros Hnd. rewrite traverse_restore.
  - rewrite delete_all_save_all. reflexivity.
  - exact Hnd.
  - intros o Ho. rewrite lookup_save_all_in by assumption.
    destruct (darkens o); [reflexivity | apply lookup_empty].
Qed.

End BloomFacts.

Section BloomClaims.
Import Bloom.
Local Open Scope string_scope.

Lemma dark_fields (o : Object3D) :
  uuid (dark o) = uuid o /\ isMesh (dark o) = isMesh o /\ layers (dark o) = layers o /\
  material (dark o) = if darkens o then Some darkMaterial else material o.
Proof. unfold dark. destruct (darkens o); repeat split; reflexivity. Qed.

(** C3, as stated, fails: when [composer.render()] throws (as the
    undeclared [composer] makes it do), the frame ends before the restore
    traversal; the starfield mesh keeps the black material and its own
    material stays in the side table. *)
Lemma bloom_frame_leaks_when_render_throws :
  animate_bloom (fun _ => Throw (Error "ReferenceError")) (fun _ => Normal tt)
    (Node (mkObject3D 1 false new_Layers None)
          [Node (mkObject3D 2 true new_Layers (Some (MeshBasicMaterial 0x0b0b16))) []])
    ∅
  = (Throw (Error "ReferenceError"),
     (Node (mkObject3D 1 false new_Layers None)
           [Node (mkObject3D 2 true new_Layers (Some darkMaterial)) []],
      {[ 2%positive := Some (MeshBasicMaterial 0x0b0b16) ]})).
Proof. reflexivity. Qed.

(** C3, amended. For a scene whose objects are distinct and an empty side
    table at the start of the frame: when [composer.render()] returns, the
    frame ends with the side table empty and every object's material as it
    was before the frame, and so does every frame of a run whose renders all
    return; the restore traversal runs on that path only: when
    [composer.render()] throws, the frame ends there, with the scene and the
    side table as the darken traversal left them. *)
Theorem bloom_frame_restores_when_render_returns
    (composer_render renderer_render : SceneNode -> completion unit)
    (scene : SceneNode) :
  NoDup (uuids scene) ->
  (forall u, composer_render (traverse darkenNonBloom scene ∅).1 = Normal u ->
             animate_bloom composer_render renderer_render scene ∅
             = (renderer_render scene, (scene, ∅))) /\
  (forall e, composer_render (traverse darkenNonBloom scene ∅).1 = Throw e ->
             animate_bloom composer_render renderer_render scene ∅
             = (Throw e, traverse darkenNonBloom scene ∅)) /\
  ((forall s, composer_render s = Normal tt) ->
   (forall s, renderer_render s = Normal tt) ->
   forall n, frames composer_render renderer_render n scene ∅ = (Normal tt, (scene, ∅))).
Proof.
  intros Hnd.
  assert (Hok : forall u, composer_render (traverse darkenNonBloom scene ∅).1 = Normal u ->
             animate_bloom composer_render renderer_render scene ∅
             = (renderer_render scene, (scene, ∅))).
  { intros u Hrender. unfold animate_bloom.
    rewrite traverse_darken in Hrender |- *. simpl in Hrender. rewrite Hrender.
    rewrite darken_then_restore by exact Hnd. reflexivity. }
  split; [exact Hok | split].
  - intros e Hrender. unfold animate_bloom.
    rewrite traverse_darken in Hrender |- *. simpl in Hrender. rewrite Hrender.
    reflexivity.
  - intros Hcomposer Hrenderer n. induction n as [| n IH]; [reflexivity | ].
    simpl. rewrite (Hok tt) by apply Hcomposer. rewrite Hrenderer. exact IH.
Qed.

Lemma bloom_frame_restores_when_render_returns_witness :
  NoDup (uuids (Node (mkObject3D 1 false new_Layers None)
          [Node (mkObject3D 2 true new_Layers (Some (MeshBasicMaterial 0x0b0b16))) []])) /\
  animate_bloom (fun _ => Normal tt) (fun _ => Normal tt)
    (Node (mkObject3D 1 false new_Layers None)
          [Node (mkObject3D 2 true new_Layers (Some (MeshBasicMaterial 0x0b0b16))) []]) ∅
  = (Normal tt,
     (Node (mkObject3D 1 false new_Layers None)
          [Node (mkObject3D 2 true new_Layers (Some (MeshBasicMaterial 0x0b0b16))) []], ∅)).
Proof.
  assert (Hnd : NoDup (uuids (Node (mkObject3D 1 false new_Layers None)
          [Node (mkObject3D 2 true new_Layers (Some (MeshBasicMaterial 0x0b0b16))) []]))).
  { unfold uuids; simpl. apply NoDup_cons_2; [ | apply NoDup_singleton].
    intros H. apply list_elem_of_singleton in H. discriminate H. }
  split; [exact Hnd | ].
  exact (proj1 (bloom_frame_restores_when_render_returns
                  (fun _ => Normal tt) (fun _ => Normal tt) _ Hnd) tt eq_refl).
Defined.

(** C4, as stated, fails: an orbit ring (a [LineLoop], not a mesh) lacks
    the bloom tag, yet the extract pass leaves its material in place and
    saves nothing. *)
Lemma extract_pass_skips_untagged_line :
  isEnabled new_Layers BLOOM_LAYER = false /\
  traverse darkenNonBloom
    (Node (mkObject3D 1 false new_Layers None)
          [Node (mkObject3D 3 false new_Layers (Some (LineBasicMaterial 0x333344))) []])
    ∅
  = (Node (mkObject3D 1 false new_Layers None)
          [Node (mkObject3D 3 false new_Layers (Some (LineBasicMaterial 0x333344))) []],
     ∅).
Proof. split; reflexivity. Qed.

(** C4, amended. During the extract pass every mesh of the scene that lacks
    the bloom tag has its current material saved in the side table under its
    identity and replaced by the unlit black [darkMaterial]; an object that
    is not a mesh keeps its material and gets no entry, tagged or not. *)
Theorem extract_pass_darkens_untagged_meshes (scene : SceneNode) (t : Table) :
  NoDup (uuids scene) ->
  Forall2 (fun o o1 =>
             uuid o1 = uuid o /\ isMesh o1 = isMesh o /\ layers o1 = layers o /\
             (isMesh o = true -> isEnabled (layers o) BLOOM_LAYER = false ->
              material o1 = Some darkMaterial /\
              (traverse darkenNonBloom scene t).2 !! uuid o = Some (material o)) /\
             (isMesh o = false ->
              material o1 = material o /\
              (traverse darkenNonBloom scene t).2 !! uuid o = t !! uuid o))
          (objects scene) (objects (traverse darkenNonBloom scene t).1).
Proof.
  intros Hnd. rewrite traverse_darken. simpl. rewrite objects_map_objects.
  apply Forall2_map_self. apply Forall_forall. intros o Ho.
  destruct (dark_fields o) as [Hu [Hm [Hl Hmat]]].
  pose proof (lookup_save_all_in (objects scene) t o Hnd Ho) as Hlook.
  rewrite darkens_isMesh in Hmat, Hlook.
  split; [exact Hu | split; [exact Hm | split; [exact Hl | split]]].
  - intros Hmesh _. rewrite Hmesh in Hmat, Hlook. split; assumption.
  - intros Hmesh. rewrite Hmesh in Hmat, Hlook. split; assumption.
Qed.
Lemma extract_pass_darkens_untagged_meshes_witness :
  NoDup (uuids (Node (mkObject3D 1 false new_Layers None)
          [Node (mkObject3D 2 true new_Layers (Some (MeshBasicMaterial 0x0b0b16))) []])) /\
  Forall2 (fun o o1 =>
             uuid o1 = uuid o /\ isMesh o1 = isMesh o /\ layers o1 = layers o /\
             (isMesh o = true -> isEnabled (layers o) BLOOM_LAYER = false ->
              material o1 = Some darkMaterial /\
              (traverse darkenNonBloom
                 (Node (mkObject3D 1 false new_Layers None)
                    [Node (mkObject3D 2 true new_Layers
                             (Some (MeshBasicMaterial 0x0b0b16))) []]) ∅).2 !! uuid o
              = Some (material o)) /\
             (isMesh o = false ->
              material o1 = material o /\
              (traverse darkenNonBloom
                 (Node (mkObject3D 1 false new_Layers None)
                    [Node (mkObject3D 2 true new_Layers
                             (Some (MeshBasicMaterial 0x0b0b16))) []]) ∅).2 !! uuid o
              = (∅ : Table) !! uuid o))
          (objects (Node (mkObject3D 1 false new_Layers None)
             [Node (mkObject3D 2 true new_Layers (Some (MeshBasicMaterial 0x0b0b16))) []]))
          (objects (traverse darkenNonBloom
             (Node (mkObject3D 1 false new_Layers None)
                [Node (mkObject3D 2 true new_Layers
                         (Some (MeshBasicMaterial 0x0b0b16))) []]) ∅).1).
Proof.
  assert (Hnd : NoDup (uuids (Node (mkObject3D 1 false new_Layers None)
          [Node (mkObject3D 2 true new_Layers (Some (MeshBasicMaterial 0x0b0b16))) []]))).
  { unfold uuids; simpl. apply NoDup_cons_2; [ | apply NoDup_singleton].
    intros H. apply list_elem_of_singleton in H. discriminate H. }
  split; [exact Hnd | ].
  exact (extract_pass_darkens_untagged_meshes _ ∅ Hnd).
Defined.

(** Beside the claims: the guard of [darkenNonBloom] hands [layers.test] the
    layer number, in which [test] finds no mask, so a mesh that carries the
    bloom tag (here the Sun, tagged by [addToBloom]) is darkened as well. *)
Lemma tagged_mesh_is_darkened_too :
  isEnabled (addToBloom new_Layers) BLOOM_LAYER = true /\
  darkenNonBloom (mkObject3D 2 true (addToBloom new_Layers) (Some ShaderMaterial)) ∅
  = (mkObject3D 2 true (addToBloom new_Layers) (Some darkMaterial),
     {[ 2%positive := Some ShaderMaterial ]}).
Proof. split; reflexivity. Qed.

End BloomClaims.

(** * Further properties of the code *)

(** ** Orbits over whole runs *)

Section OrbitFacts.
Import Kinematics Orbits.
Local Open Scope R_scope.
Local Open Scope string_scope.

Lemma Forall2_trans_map {A : Type} (P Q R' : A -> A -> Prop) (f : A -> A)
    (l l' : list A) :
  (forall a b, P a (f a) -> Q (f a) b -> R' a b) ->
  Forall (fun a => P a (f a)) l ->
  Forall2 Q (map f l) l' -> Forall2 R' l l'.
Proof.
  intros Hstep HP. revert l'.
  induction HP as [| a l Ha _ IH]; intros l' HQ; simpl in HQ.
  - inversion HQ; constructor.
  - inversion HQ as [| fa b lf lb Hab Hrest]; subst. constructor.
    + eapply Hstep; eassumption.
    + apply IH. exact Hrest.
Qed.

Lemma Forall2_map_right {A B : Type} (P : A -> B -> Prop) (f : B -> B)
    (l : list A) (l' : list B) :
  (forall a b, P a b -> P a (f b)) -> Forall2 P l l' -> Forall2 P l (map f l').
Proof.
  intros Hf; induction 1; simpl; constructor; auto.
Qed.

Lemma cos2_sin2 (a : R) : cos a * cos a + sin a * sin a = 1.
Proof. pose proof (sin2_cos2 a) as H. unfold Rsqr in H. lra. Qed.

(** The position a planet's angle and distance determine. *)
Lemma reachable_position (cfg : Config) (catalog : list CatalogEntry) (st : SimState) :
  reachable cfg catalog st ->
  Forall (fun p => position (mesh p)
                   = mkVector3 (cos (theta p) * distance p) 0 (sin (theta p) * distance p))
         (planets st).
Proof.
  apply reachable_invariant; intros; reflexivity.
Qed.

(** The constants a planet takes from its catalog entry and keeps. *)
Lemma reachable_catalog_constants (cfg : Config) (catalog : list CatalogEntry)
    (st : SimState) :
  reachable cfg catalog st ->
  Forall2 (fun e p =>
             name p = e_name e /\ radius p = e_radius e /\
             distance p = a_AU e * cfgAU cfg /\
             meanMotionSec p = 2 * PI / (period_days e * 86400) /\
             ex (rotation (mesh p)) = 0 /\
             ez (rotation (mesh p)) = degToRad (property_or_0 axialTilts (e_name e)))
          catalog (planets st).
Proof.
  induction 1 as [now rnds rndMoon | clockDelta st _ IH].
  - simpl.
    apply Forall2_map_makePlanet. intros rnd p. simpl.
    repeat split; reflexivity.
  - unfold animate_orbits, advance; simpl.
    apply Forall2_map_right; [ | exact IH].
    intros e p Hp. simpl. exact Hp.
Qed.


Lemma start_state_reachable :
  reachable CONFIG PLANETS (mkSimState 0 (map_makePlanet CONFIG 0 [] PLANETS) (0 * PI * 2) 0).
Proof. exact (reach_initial CONFIG PLANETS 0 [] 0). Defined.

(** X1. In every state reached from a catalog each planet sits in the
    plane y = 0 on the circle about the origin whose radius is the planet's
    [distance]. *)
Theorem planet_stays_on_orbit_circle (cfg : Config) (catalog : list CatalogEntry)
    (st : SimState) :
  reachable cfg catalog st ->
  Forall (fun p => vx (position (mesh p)) * vx (position (mesh p))
                   + vz (position (mesh p)) * vz (position (mesh p))
                   = distance p * distance p /\
                   vy (position (mesh p)) = 0)
         (planets st).
Proof.
  intros Hreach.
  eapply Forall_impl; [exact (reachable_position cfg catalog st Hreach) | ].
  intros p Hp. rewrite Hp. simpl. split; [ | reflexivity].
  pose proof (cos2_sin2 (theta p)) as Hsc. nra.
Qed.

Lemma planet_stays_on_orbit_circle_witness :
  reachable CONFIG PLANETS (mkSimState 0 (map_makePlanet CONFIG 0 [] PLANETS) (0 * PI * 2) 0) /\
  Forall (fun p => vx (position (mesh p)) * vx (position (mesh p))
                   + vz (position (mesh p)) * vz (position (mesh p))
                   = distance p * distance p /\
                   vy (position (mesh p)) = 0)
         (map_makePlanet CONFIG 0 [] PLANETS).
Proof.
  split; [exact start_state_reachable | ].
  exact (planet_stays_on_orbit_circle CONFIG PLANETS _ start_state_reachable).
Defined.



(** X3. In every reachable state the planets stand in catalog order, and
    each keeps the name, the radius, the distance [a_AU * AU], the mean
    motion [2 * PI / (period_days * 86400)] and the axial tilt (about z, none
    about x) that [makePlanet] gave it from its entry: no frame changes
    any of these. *)
Theorem planets_keep_catalog_constants (cfg : Config) (catalog : list CatalogEntry)
    (st : SimState) :
  reachable cfg catalog st ->
  Forall2 (fun e p =>
             name p = e_name e /\ radius p = e_radius e /\
             distance p = a_AU e * cfgAU cfg /\
             meanMotionSec p = 2 * PI / (period_days e * 86400) /\
             ex (rotation (mesh p)) = 0 /\
             ez (rotation (mesh p)) = degToRad (property_or_0 axialTilts (e_name e)))
          catalog (planets st).
Proof.
  exact (reachable_catalog_constants cfg catalog st).
Qed.

Lemma planets_keep_catalog_constants_witness :
  reachable CONFIG PLANETS
            (animate_orbits CONFIG 0.016
               (mkSimState 0 (map_makePlanet CONFIG 0 [] PLANETS) (0 * PI * 2) 0)) /\
  Forall2 (fun e p =>
             name p = e_name e /\ radius p = e_radius e /\
             distance p = a_AU e * cfgAU CONFIG /\
             meanMotionSec p = 2 * PI / (period_days e * 86400) /\
             ex (rotation (mesh p)) = 0 /\
             ez (rotation (mesh p)) = degToRad (property_or_0 axialTilts (e_name e)))
          PLANETS
          (planets (animate_orbits CONFIG 0.016
                      (mkSimState 0 (map_makePlanet CONFIG 0 [] PLANETS) (0 * PI * 2) 0))).
Proof.
  assert (H : reachable CONFIG PLANETS
                (animate_orbits CONFIG 0.016
                   (mkSimState 0 (map_makePlanet CONFIG 0 [] PLANETS) (0 * PI * 2) 0)))
    by (apply reach_frame; exact start_state_reachable).
  split; [exact H | ].
  exact (planets_keep_catalog_constants CONFIG PLANETS _ H).
Defined.

(** X4. In one step the angle a planet gains, multiplied by its period, is
    the same for every planet, [2 * PI * dt * timeScale * orbitalSpeedBoost
    / 86400]: the time warp keeps the ratios of the orbital periods. *)
Theorem angle_steps_scale_with_periods (cfg : Config) (catalog : list CatalogEntry)
    (dt : R) (st : SimState) :
  reachable cfg catalog st ->
  Forall2 (fun e p =>
             period_days e <> 0 ->
             (theta (advance_planet cfg dt p) - theta p) * period_days e
             = 2 * PI * dt * timeScale cfg * orbitalSpeedBoost cfg / 86400)
          catalog (planets st).
Proof.
  intros Hreach.
  eapply Forall2_impl; [exact (reachable_catalog_constants cfg catalog st Hreach) | ].
  intros e p [_ [_ [_ [Hmm _]]]] Hne. simpl. rewrite Hmm. field. exact Hne.
Qed.

Lemma angle_steps_scale_with_periods_witness :
  reachable CONFIG PLANETS (mkSimState 0 (map_makePlanet CONFIG 0 [] PLANETS) (0 * PI * 2) 0) /\
  Forall2 (fun e p =>
             period_days e <> 0 ->
             (theta (advance_planet CONFIG 0.016 p) - theta p) * period_days e
             = 2 * PI * 0.016 * timeScale CONFIG * orbitalSpeedBoost CONFIG / 86400)
          PLANETS (map_makePlanet CONFIG 0 [] PLANETS).
Proof.
  split; [exact start_state_reachable | ].
  exact (angle_steps_scale_with_periods CONFIG PLANETS 0.016 _ start_state_reachable).
Defined.

(** X5. A step whose warped time is one full revolution of a planet
    ([meanMotionSec * dt * timeScale * orbitalSpeedBoost = 2 * PI]) adds
    [2 * PI] to its angle and puts it back at the position it had. *)
Theorem full_revolution_returns (cfg : Config) (catalog : list CatalogEntry)
    (dt : R) (st : SimState) :
  reachable cfg catalog st ->
  Forall (fun p =>
            meanMotionSec p * dt * timeScale cfg * orbitalSpeedBoost cfg = 2 * PI ->
            theta (advance_planet cfg dt p) = theta p + 2 * PI /\
            position (mesh (advance_planet cfg dt p)) = position (mesh p))
         (planets st).
Proof.
  intros Hreach.
  eapply Forall_impl; [exact (reachable_position cfg catalog st Hreach) | ].
  intros p Hpos Hrev.
  assert (Htheta : theta (advance_planet cfg dt p) = theta p + 2 * PI).
  { simpl. rewrite <- Hrev. ring. }
  split; [exact Htheta | ].
  rewrite Hpos. simpl in Htheta |- *. rewrite Htheta.
  rewrite cos_plus, sin_plus, cos_2PI, sin_2PI. f_equal; ring.
Qed.

Lemma full_revolution_returns_witness :
  reachable CONFIG PLANETS (mkSimState 0 (map_makePlanet CONFIG 0 [] PLANETS) (0 * PI * 2) 0) /\
  position (mesh (advance_planet CONFIG (87.969 * 86400 / 1000000)
                    (makePlanet CONFIG 0 0 (mkEntry "Mercury" (1.3 * 2.0) 0.387 87.969 0xaaaaaa))))
  = position (mesh (makePlanet CONFIG 0 0 (mkEntry "Mercury" (1.3 * 2.0) 0.387 87.969 0xaaaaaa))).
Proof.
  split; [exact start_state_reachable | ].
  pose proof (full_revolution_returns CONFIG PLANETS (87.969 * 86400 / 1000000) _
                start_state_reachable) as Hall.
  apply Forall_cons_1 in Hall. destruct Hall as [Hmercury _].
  apply Hmercury.
  unfold makePlanet, CONFIG, daySec.
  cbn [meanMotionSec period_days timeScale orbitalSpeedBoost]. lra.
Defined.

End OrbitFacts.

Section StartAndRunFacts.
Import Kinematics Orbits.
Local Open Scope R_scope.
Local Open Scope string_scope.





(** X7. For a clock reading [now >= 0] and a positive period the angle a
    planet starts from lies within one turn above its phase offset:
    [offset <= theta0 < offset + 2 * PI]. *)
Theorem initial_angle_range (cfg : Config) (now rnd : R) (p : CatalogEntry) :
  0 <= now -> 0 < period_days p ->
  property_or_0 phaseOffsets (e_name p) <= theta (makePlanet cfg now rnd p)
    < property_or_0 phaseOffsets (e_name p) + 2 * PI.
Proof.
  intros Hnow Hp. simpl.
  assert (Hper : 0 < period_days p * daySec) by (unfold daySec; lra).
  destruct (js_rem_nonneg (now / 1000) (period_days p * daySec)) as [k [_ [_ [Hlo Hhi]]]];
    [lra | exact Hper | ].
  generalize dependent (js_rem (now / 1000) (period_days p * daySec)).
  generalize dependent (period_days p * daySec).
  intros D HD r Hlo Hhi.
  assert (Hmm : 0 < 2 * PI / D).
  { apply Rdiv_lt_0_compat; [pose proof PI_bounds; lra | exact HD]. }
  assert (Hfull : 2 * PI / D * D = 2 * PI) by (field; lra).
  assert (H1 : 0 <= 2 * PI / D * r) by (apply Rmult_le_pos; lra).
  assert (H2 : 2 * PI / D * r < 2 * PI / D * D)
    by (apply Rmult_lt_compat_l; assumption).
  split; lra.
Qed.

Lemma initial_angle_range_witness :
  0 <= 5000 /\ 0 < 365.256 /\
  property_or_0 phaseOffsets "Earth"
    <= theta (makePlanet CONFIG 5000 0 (mkEntry "Earth" (2.2 * 2.0) 1.000 365.256 0x3ba3ff))
    < property_or_0 phaseOffsets "Earth" + 2 * PI.
Proof.
  assert (Hnow : 0 <= 5000) by lra.
  assert (Hp : 0 < 365.256) by lra.
  split; [exact Hnow | split; [exact Hp | ]].
  exact (initial_angle_range CONFIG 5000 0
           (mkEntry "Earth" (2.2 * 2.0) 1.000 365.256 0x3ba3ff) Hnow Hp).
Defined.

(** What a run does to the kinematic state. *)
Lemma run_effect (cfg : Config) (catalog : list CatalogEntry) (deltas : list R) :
  forall st,
    reachable cfg catalog st ->
    Forall2 (fun p p' =>
               theta p' = theta p
                 + meanMotionSec p * clamped_time deltas * timeScale cfg * orbitalSpeedBoost cfg /\
               position (mesh p')
               = mkVector3 (cos (theta p') * distance p) 0 (sin (theta p') * distance p) /\
               ey (rotation (mesh p'))
               = ey (rotation (mesh p)) + INR (length deltas) * (spin p * timeScale cfg * 1.4) /\
               meanMotionSec p' = meanMotionSec p /\ distance p' = distance p /\
               spin p' = spin p)
            (planets st) (planets (run cfg deltas st)) /\
    moonAngle (run cfg deltas st)
    = moonAngle st + moonMeanMotionSec * clamped_time deltas * timeScale cfg * orbitalSpeedBoost cfg /\
    sun_rotation_y (run cfg deltas st)
    = sun_rotation_y st + INR (length deltas) * (0.002 * timeScale cfg).
Proof.
  induction deltas as [| d rest IH]; intros st Hreach.
  - simpl. split; [ | split; ring].
    pose proof (reachable_position cfg catalog st Hreach) as Hpos.
    induction Hpos as [| p l Hp _ IHl]; constructor; [ | exact IHl].
    rewrite Hp. repeat split; try reflexivity; ring.
  - change (run cfg (d :: rest) st) with (run cfg rest (animate_orbits cfg d st)).
    pose proof (reach_frame cfg catalog d st Hreach) as Hreach1.
    destruct (IH _ Hreach1) as [Hpl [Hmoon Hsun]].
    change (length (d :: rest)) with (S (length rest)). rewrite S_INR.
    change (clamped_time (d :: rest)) with (getClampedDelta d + clamped_time rest).
    split; [ | split].
    + unfold animate_orbits, advance in Hpl; simpl in Hpl.
      eapply Forall2_trans_map with (f := advance_planet cfg (getClampedDelta d))
                                    (P := fun a b => b = advance_planet cfg (getClampedDelta d) a);
        [ | apply Forall_forall; intros; reflexivity | exact Hpl].
      intros a b _ [Hth [Hpos [Hrot [Hmm [Hdist Hspin]]]]].
      simpl in Hth, Hpos, Hrot, Hmm, Hdist, Hspin.
      rewrite Hth, Hpos, Hrot, Hmm, Hdist, Hspin, Hth.
      repeat split; try reflexivity; ring.
    + rewrite Hmoon. unfold animate_orbits, advance; simpl. ring.
    + rewrite Hsun. unfold animate_orbits, advance; simpl. ring.
Qed.

(** X8. A run of frames moves every planet, and the Moon's angle, as one
    step of the summed clamped deltas would: the angle gains
    [meanMotionSec * clamped_time * timeScale * orbitalSpeedBoost] and the
    position is the one of the new angle. *)
Theorem run_adds_up_clamped_time (cfg : Config) (catalog : list CatalogEntry)
    (deltas : list R) (st : SimState) :
  reachable cfg catalog st ->
  Forall2 (fun p p' =>
             theta p' = theta p
               + meanMotionSec p * clamped_time deltas * timeScale cfg * orbitalSpeedBoost cfg /\
             position (mesh p')
             = mkVector3 (cos (theta p') * distance p) 0 (sin (theta p') * distance p))
          (planets st) (planets (run cfg deltas st)) /\
  moonAngle (run cfg deltas st)
  = moonAngle st + moonMeanMotionSec * clamped_time deltas * timeScale cfg * orbitalSpeedBoost cfg.
Proof.
  intros Hreach. destruct (run_effect cfg catalog deltas st Hreach) as [Hpl [Hmoon _]].
  split; [ | exact Hmoon].
  eapply Forall2_impl; [exact Hpl | ]. intros p p' [Hth [Hpos _]]. split; assumption.
Qed.

Lemma run_adds_up_clamped_time_witness :
  reachable CONFIG PLANETS (mkSimState 0 (map_makePlanet CONFIG 0 [] PLANETS) (0 * PI * 2) 0) /\
  moonAngle (run CONFIG [0.016; 3]
               (mkSimState 0 (map_makePlanet CONFIG 0 [] PLANETS) (0 * PI * 2) 0))
  = 0 * PI * 2
    + moonMeanMotionSec * clamped_time [0.016; 3] * timeScale CONFIG * orbitalSpeedBoost CONFIG.
Proof.
  split; [exact start_state_reachable | ].
  exact (proj2 (run_adds_up_clamped_time CONFIG PLANETS [0.016; 3] _ start_state_reachable)).
Defined.

(** X9. The spin of the planets and of the Sun counts frames, not time:
    after a run of [n] frames, whatever their deltas, a planet's
    [rotation.y] has gained [n * (spin * timeScale * 1.4)] and the Sun's
    [n * (0.002 * timeScale)]. *)
Theorem spin_counts_frames_not_time (cfg : Config) (catalog : list CatalogEntry)
    (deltas : list R) (st : SimState) :
  reachable cfg catalog st ->
  Forall2 (fun p p' =>
             ey (rotation (mesh p'))
             = ey (rotation (mesh p)) + INR (length deltas) * (spin p * timeScale cfg * 1.4))
          (planets st) (planets (run cfg deltas st)) /\
  sun_rotation_y (run cfg deltas st)
  = sun_rotation_y st + INR (length deltas) * (0.002 * timeScale cfg).
Proof.
  intros Hreach. destruct (run_effect cfg catalog deltas st Hreach) as [Hpl [_ Hsun]].
  split; [ | exact Hsun].
  eapply Forall2_impl; [exact Hpl | ]. intros p p' [_ [_ [Hrot _]]]. exact Hrot.
Qed.

Lemma spin_counts_frames_not_time_witness :
  reachable CONFIG PLANETS (mkSimState 0 (map_makePlanet CONFIG 0 [] PLANETS) (0 * PI * 2) 0) /\
  sun_rotation_y (run CONFIG [0.016; 3]
                    (mkSimState 0 (map_makePlanet CONFIG 0 [] PLANETS) (0 * PI * 2) 0))
  = 0 + INR 2 * (0.002 * timeScale CONFIG).
Proof.
  split; [exact start_state_reachable | ].
  exact (proj2 (spin_counts_frames_not_time CONFIG PLANETS [0.016; 3] _ start_state_reachable)).
Defined.

(** X10. With [Math.random()] in [0, 1), the Moon starts at an angle in
    [0, 2 * PI) and every planet's spin rate lies in [0.01, 0.03), in the
    initial state and after every run. *)
Theorem spin_and_moon_start_ranges (cfg : Config) (now : R) (rnds : list R)
    (rndMoon : R) (catalog : list CatalogEntry) (deltas : list R) :
  Forall (fun r => 0 <= r < 1) rnds -> 0 <= rndMoon < 1 ->
  0 <= moonAngle (initial_state cfg now rnds rndMoon catalog) < 2 * PI /\
  Forall (fun p => 0.01 <= spin p < 0.03)
         (planets (run cfg deltas (initial_state cfg now rnds rndMoon catalog))).
Proof.
  intros Hrnds Hmoon. unfold initial_state.
  split.
  - simpl. pose proof PI_bounds. nra.
  - assert (Hinit : Forall (fun p => 0.01 <= spin p < 0.03)
                      (map_makePlanet cfg now rnds catalog)).
    { clear deltas. revert rnds Hrnds.
      induction catalog as [| e rest IH]; intros rnds Hrnds; simpl; constructor.
      - assert (Hhd : 0 <= hd 0 rnds < 1).
        { destruct Hrnds; simpl; [lra | assumption]. }
        simpl. generalize dependent (hd 0 rnds). intros h Hh. split; lra.
      - apply IH. destruct Hrnds; simpl; [constructor | assumption]. }
    set (st0 := mkSimState 0 (map_makePlanet cfg now rnds catalog) (rndMoon * PI * 2) 0) in *.
    change (map_makePlanet cfg now rnds catalog) with (planets st0) in Hinit.
    clearbody st0. revert st0 Hinit.
    induction deltas as [| d rest IH]; intros st0 Hinit; simpl; [exact Hinit | ].
    apply IH. unfold animate_orbits, advance; simpl.
    apply Forall_map_advance; [ | exact Hinit]. intros p Hp. exact Hp.
Qed.

Lemma spin_and_moon_start_ranges_witness :
  Forall (fun r => 0 <= r < 1) [0.5] /\ 0 <= 0.25 < 1 /\
  initial_state CONFIG 0 [0.5] 0.25 PLANETS
  = mkSimState 0 (map_makePlanet CONFIG 0 [0.5] PLANETS) (0.25 * PI * 2) 0 /\
  0 <= 0.25 * PI * 2 < 2 * PI.
Proof.
  assert (Hr : Forall (fun r => 0 <= r < 1) [0.5]).
  { apply Forall_cons_2; [lra | apply Forall_nil_2]. }
  assert (Hm : 0 <= 0.25 < 1) by lra.
  split; [exact Hr | split; [exact Hm | split; [reflexivity | ]]].
  exact (proj1 (spin_and_moon_start_ranges CONFIG 0 [0.5] 0.25 PLANETS [] Hr Hm)).
Defined.

End StartAndRunFacts.

(** ** The two revisions frame by frame *)

Section RevisionFacts.
Local Open Scope R_scope.
Local Open Scope string_scope.






End RevisionFacts.

(** ** Orbit rings, Saturn's rings and the Moon *)

Section SceneFacts.
Import Kinematics Scene.
Local Open Scope R_scope.
Local Open Scope string_scope.

(** A rotation built from Euler angles keeps lengths. *)
Lemma rotation_keeps_length (r : Euler) (v : Vector3) :
  let w := Rev0.applyMatrix (Rev0.makeRotationFromEuler r) v in
  vx w * vx w + vy w * vy w + vz w * vz w = vx v * vx v + vy v * vy v + vz v * vz v.
Proof.
  destruct r as [rx ry rz], v as [x y z].
  unfold Rev0.applyMatrix, Rev0.makeRotationFromEuler; simpl.
  pose proof (cos2_sin2 rx) as Hx.
  pose proof (cos2_sin2 ry) as Hy.
  pose proof (cos2_sin2 rz) as Hz.
  generalize dependent (cos rx). generalize dependent (sin rx).
  generalize dependent (cos ry). generalize dependent (sin ry).
  generalize dependent (cos rz). generalize dependent (sin rz).
  intros. nsatz.
Qed.

(** X12. Whatever Earth's position, tilt and spin angle and whatever the
    Moon's angle, the Moon's centre is 5.5 scene units from Earth's. *)
Theorem moon_keeps_its_distance (earth : Mesh) (angle : R) :
  let m := moon_world_position earth angle in
  (vx m - vx (position earth)) * (vx m - vx (position earth))
  + (vy m - vy (position earth)) * (vy m - vy (position earth))
  + (vz m - vz (position earth)) * (vz m - vz (position earth))
  = 5.5 * 5.5.
Proof.
  intros m. unfold m, moon_world_position. cbv zeta. cbn [vx vy vz].
  set (inner := Rev0.applyMatrix (Rev0.makeRotationFromEuler (mkEuler 0 angle 0))
                                 (mkVector3 5.5 0 0)).
  set (turned := Rev0.applyMatrix (Rev0.makeRotationFromEuler (rotation earth)) inner).
  pose proof (rotation_keeps_length (rotation earth) inner) as H1.
  pose proof (rotation_keeps_length (mkEuler 0 angle 0) (mkVector3 5.5 0 0)) as H2.
  cbv zeta in H1, H2. fold inner in H2. fold turned in H1.
  cbn [vx vy vz] in H2.
  replace (vx (position earth) + vx turned - vx (position earth)) with (vx turned) by ring.
  replace (vy (position earth) + vy turned - vy (position earth)) with (vy turned) by ring.
  replace (vz (position earth) + vz turned - vz (position earth)) with (vz turned) by ring.
  rewrite H1, H2. ring.
Qed.

Lemma getPoint_angle (d t : R) :
  EllipseCurve_getPoint 0 0 d d t = (d * cos (t * (2 * PI)), d * sin (t * (2 * PI))).
Proof.
  unfold EllipseCurve_getPoint. cbv zeta.
  replace (0 + t * (PI * 2 - 0)) with (t * (2 * PI)) by ring.
  f_equal; ring.
Qed.

Lemma getPoint_on_circle (d t : R) :
  fst (EllipseCurve_getPoint 0 0 d d t) * fst (EllipseCurve_getPoint 0 0 d d t)
  + snd (EllipseCurve_getPoint 0 0 d d t) * snd (EllipseCurve_getPoint 0 0 d d t)
  = d * d.
Proof.
  rewrite getPoint_angle. cbn [fst snd].
  pose proof (cos2_sin2 (t * (2 * PI))) as H.
  generalize dependent (cos (t * (2 * PI))).
  generalize dependent (sin (t * (2 * PI))). intros s c H. nra.
Qed.

Lemma nth_map_seq {A : Type} (F : nat -> A) (n k : nat) (dflt : A) :
  (k < n)%nat -> nth k (map F (seq 0 n)) dflt = F k.
Proof.
  intros Hk.
  rewrite (nth_indep _ dflt (F 0%nat)) by (rewrite length_map, length_seq; exact Hk).
  rewrite map_nth, seq_nth by exact Hk. reflexivity.
Qed.

Lemma orbit_ring_points (d : R) :
  Forall (fun v => vy v = 0.01 /\ vx v * vx v + vz v * vz v = d * d) (makeOrbitRing d).
Proof.
  unfold makeOrbitRing, getPoints. rewrite map_map.
  apply Forall_forall. intros v Hv.
  apply list_elem_of_In in Hv. apply in_map_iff in Hv as [k [<- _]].
  cbn [vx vy vz].
  split; [reflexivity | ].
  apply (getPoint_on_circle d (INR k / INR 256)).
Qed.

(** X13. The line loop [makeOrbitRing(distance)] has 257 vertices, all at
    height 0.01 on the circle of radius [distance] about the y-axis; the
    first and the last are the same point [(distance, 0.01, 0)]. *)
Theorem orbit_ring_is_the_orbit_circle (d : R) :
  length (makeOrbitRing d) = 257%nat /\
  Forall (fun v => vy v = 0.01 /\ vx v * vx v + vz v * vz v = d * d) (makeOrbitRing d) /\
  nth 0 (makeOrbitRing d) (mkVector3 0 0 0) = mkVector3 d 0.01 0 /\
  nth 256 (makeOrbitRing d) (mkVector3 0 0 0) = mkVector3 d 0.01 0.
Proof.
  assert (H256 : INR 256 = 256) by (rewrite INR_IZR_INZ; reflexivity).
  split; [ | split; [apply orbit_ring_points | ]].
  - unfold makeOrbitRing, getPoints. rewrite !length_map, length_seq. reflexivity.
  - unfold makeOrbitRing, getPoints. rewrite map_map. split.
    + rewrite nth_map_seq by lia. rewrite getPoint_angle. cbn [fst snd].
      replace (INR 0 / INR 256 * (2 * PI)) with 0
        by (rewrite H256; change (INR 0) with 0; field).
      rewrite cos_0, sin_0. f_equal; ring.
    + rewrite nth_map_seq by lia. rewrite getPoint_angle. cbn [fst snd].
      replace (INR 256 / INR 256 * (2 * PI)) with (2 * PI) by (rewrite H256; field).
      rewrite cos_2PI, sin_2PI. f_equal; ring.
Qed.

Lemma Forall2_with_right {A B : Type} (P : A -> B -> Prop) (Q : B -> Prop)
    (l : list A) (l' : list B) :
  Forall2 P l l' -> Forall Q l' -> Forall2 (fun a b => P a b /\ Q b) l l'.
Proof.
  induction 1 as [| a b l l' Hab _ IH]; intros HQ; constructor.
  - split; [exact Hab | ]. apply Forall_cons_1 in HQ. tauto.
  - apply IH. apply Forall_cons_1 in HQ. tauto.
Qed.

Lemma Forall2_map_left {A B C : Type} (P : C -> B -> Prop) (f : A -> C)
    (l : list A) (l' : list B) :
  Forall2 (fun a b => P (f a) b) l l' -> Forall2 P (map f l) l'.
Proof. induction 1; simpl; constructor; assumption. Qed.

(** X14. In every reachable state each planet is on the circle its orbit
    ring draws, 0.01 below the ring: every vertex of the ring of its catalog
    entry is as far from the y-axis as the planet. *)
Theorem planet_moves_on_its_ring (cfg : Config) (catalog : list CatalogEntry)
    (st : SimState) :
  reachable cfg catalog st ->
  Forall2 (fun ring p =>
             Forall (fun v =>
                       vx v * vx v + vz v * vz v
                       = vx (position (mesh p)) * vx (position (mesh p))
                         + vz (position (mesh p)) * vz (position (mesh p)) /\
                       vy v = vy (position (mesh p)) + 0.01)
                    ring)
          (orbitRings cfg catalog) (planets st).
Proof.
  intros Hreach. unfold orbitRings. apply Forall2_map_left.
  pose proof (Forall2_with_right _ _ _ _
                (reachable_catalog_constants cfg catalog st Hreach)
                (reachable_position cfg catalog st Hreach)) as Hboth.
  eapply Forall2_impl; [exact Hboth | ].
  intros e p [[_ [_ [Hdist _]]] Hpos].
  eapply Forall_impl; [apply orbit_ring_points | ].
  intros v [Hy Hcircle]. rewrite Hpos. simpl. rewrite Hy, Hcircle, Hdist.
  split; [ | ring].
  pose proof (cos2_sin2 (theta p)) as H.
  generalize dependent (cos (theta p)). generalize dependent (sin (theta p)).
  intros s c H. nra.
Qed.

Lemma planet_moves_on_its_ring_witness :
  reachable CONFIG PLANETS (mkSimState 0 (map_makePlanet CONFIG 0 [] PLANETS) (0 * PI * 2) 0) /\
  Forall2 (fun ring p =>
             Forall (fun v =>
                       vx v * vx v + vz v * vz v
                       = vx (position (mesh p)) * vx (position (mesh p))
                         + vz (position (mesh p)) * vz (position (mesh p)) /\
                       vy v = vy (position (mesh p)) + 0.01)
                    ring)
          (orbitRings CONFIG PLANETS) (map_makePlanet CONFIG 0 [] PLANETS).
Proof.
  split; [exact start_state_reachable | ].
  exact (planet_moves_on_its_ring CONFIG PLANETS _ start_state_reachable).
Defined.

Lemma hypot_polar (rho phi : R) : 0 <= rho -> hypot (rho * cos phi) (rho * sin phi) = rho.
Proof.
  intros Hrho. unfold hypot.
  replace (rho * cos phi * (rho * cos phi) + rho * sin phi * (rho * sin phi))
    with (rho * rho * (cos phi * cos phi + sin phi * sin phi)) by ring.
  rewrite cos2_sin2, Rmult_1_r. apply sqrt_square. exact Hrho.
Qed.

(** X15. For a positive planet radius, a ring vertex at distance [rho] from
    the centre, between the inner radius [1.3 * radius] and the outer radius
    [2.2 * radius], gets the texture coordinates [(u, 1)] with [u] in
    [0, 1]; [u] is 0 exactly on the inner edge and 1 exactly on the outer
    edge. *)
Theorem saturn_ring_uv_range (radius rho phi : R) :
  0 < radius -> ring_inner radius <= rho <= ring_outer radius ->
  0 <= fst (ring_uv radius (rho * cos phi) (rho * sin phi)) <= 1 /\
  snd (ring_uv radius (rho * cos phi) (rho * sin phi)) = 1 /\
  (fst (ring_uv radius (rho * cos phi) (rho * sin phi)) = 0 <-> rho = ring_inner radius) /\
  (fst (ring_uv radius (rho * cos phi) (rho * sin phi)) = 1 <-> rho = ring_outer radius).
Proof.
  unfold ring_inner, ring_outer. intros Hr [Hlo Hhi].
  unfold ring_uv. cbv zeta. unfold ring_inner, ring_outer. cbn [fst snd].
  rewrite hypot_polar by lra.
  assert (Hw : 0 < radius * 2.2 - radius * 1.3) by lra.
  assert (Hu : (rho - radius * 1.3) / (radius * 2.2 - radius * 1.3)
               * (radius * 2.2 - radius * 1.3) = rho - radius * 1.3) by (field; lra).
  generalize dependent ((rho - radius * 1.3) / (radius * 2.2 - radius * 1.3)).
  intros u Hu.
  repeat split; try lra; try nra.
Qed.

Lemma saturn_ring_uv_range_witness :
  0 < 14.6 /\ ring_inner 14.6 <= 20 <= ring_outer 14.6 /\
  0 <= fst (ring_uv 14.6 (20 * cos 1) (20 * sin 1)) <= 1.
Proof.
  assert (Hr : 0 < 14.6) by lra.
  assert (Hrho : ring_inner 14.6 <= 20 <= ring_outer 14.6)
    by (unfold ring_inner, ring_outer; lra).
  split; [exact Hr | split; [exact Hrho | ]].
  exact (proj1 (saturn_ring_uv_range 14.6 20 1 Hr Hrho)).
Defined.

End SceneFacts.

(** ** Layers and the side table *)

Section BloomExtras.
Import Bloom.
Local Open Scope string_scope.

Lemma two_object_scene_NoDup :
  NoDup (uuids (Node (mkObject3D 1 false new_Layers None)
          [Node (mkObject3D 2 true (addToBloom new_Layers) (Some ShaderMaterial)) []])).
Proof.
  unfold uuids; simpl. apply NoDup_cons_2; [ | apply NoDup_singleton].
  intros H. apply list_elem_of_singleton in H. discriminate H.
Defined.

(** X16. [darkenNonBloom] darkens a mesh that carries the bloom tag just
    like one that does not: the guard hands [layers.test] the layer number,
    in which [test] finds no mask, so the tag never spares a mesh. *)
Theorem darkenNonBloom_ignores_the_tag (obj : Object3D) (t : Table) :
  isMesh obj = true ->
  isEnabled (layers obj) BLOOM_LAYER = true ->
  darkenNonBloom obj t
  = (mkObject3D (uuid obj) true (layers obj) (Some darkMaterial),
     <[uuid obj := material obj]> t).
Proof.
  intros Hmesh _. unfold darkenNonBloom. rewrite test_number, Hmesh. reflexivity.
Qed.

Lemma darkenNonBloom_ignores_the_tag_witness :
  isMesh (mkObject3D 2 true (addToBloom new_Layers) (Some ShaderMaterial)) = true /\
  isEnabled (layers (mkObject3D 2 true (addToBloom new_Layers) (Some ShaderMaterial)))
            BLOOM_LAYER = true /\
  darkenNonBloom (mkObject3D 2 true (addToBloom new_Layers) (Some ShaderMaterial)) ∅
  = (mkObject3D 2 true (addToBloom new_Layers) (Some darkMaterial),
     <[2%positive := Some ShaderMaterial]> ∅).
Proof.
  split; [reflexivity | split; [reflexivity | ]].
  exact (darkenNonBloom_ignores_the_tag
           (mkObject3D 2 true (addToBloom new_Layers) (Some ShaderMaterial)) ∅
           eq_refl eq_refl).
Defined.

Lemma restore_absent (obj : Object3D) (M : Table) :
  M !! uuid obj = None -> restoreMaterials obj M = (obj, M).
Proof. intros H. unfold restoreMaterials. rewrite H. reflexivity. Qed.

(** X17. A restore traversal over a scene none of whose objects has an
    entry in the side table (an empty table, say) changes neither the scene
    nor the table. *)
Theorem restore_without_entries_is_noop (n : SceneNode) :
  forall M : Table,
    (forall o, o ∈ objects n -> M !! uuid o = None) ->
    traverse restoreMaterials n M = (n, M).
Proof.
  induction n as [obj children IH] using SceneNode_ind. intros M HM.
  rewrite traverse_Node, restore_absent by (apply HM; simpl; left).
  assert (Heach : traverse_each restoreMaterials children M = (children, M)).
  { assert (HMc : forall o, o ∈ flat_map objects children -> M !! uuid o = None).
    { intros o Ho. apply HM. simpl. right. exact Ho. }
    clear HM. induction IH as [| c rest Hc _ IHrest]; [reflexivity | ].
    rewrite traverse_each_cons.
    rewrite Hc by (intros o Ho; apply HMc; simpl; apply elem_of_app; left; exact Ho).
    rewrite IHrest by (intros o Ho; apply HMc; simpl; apply elem_of_app; right; exact Ho).
    reflexivity. }
  rewrite Heach. reflexivity.
Qed.

Lemma restore_without_entries_is_noop_witness :
  (forall o,
     o ∈ objects (Node (mkObject3D 1 false new_Layers None)
                    [Node (mkObject3D 2 true (addToBloom new_Layers) (Some ShaderMaterial)) []]) ->
     (∅ : Table) !! uuid o = None) /\
  traverse restoreMaterials
    (Node (mkObject3D 1 false new_Layers None)
       [Node (mkObject3D 2 true (addToBloom new_Layers) (Some ShaderMaterial)) []]) ∅
  = (Node (mkObject3D 1 false new_Layers None)
       [Node (mkObject3D 2 true (addToBloom new_Layers) (Some ShaderMaterial)) []], ∅).
Proof.
  assert (H : forall o,
             o ∈ objects (Node (mkObject3D 1 false new_Layers None)
                    [Node (mkObject3D 2 true (addToBloom new_Layers) (Some ShaderMaterial)) []]) ->
             (∅ : Table) !! uuid o = None)
    by (intros o _; apply lookup_empty).
  split; [exact H | ].
  exact (restore_without_entries_is_noop _ ∅ H).
Defined.

Lemma dark_dark (o : Object3D) : dark (dark o) = dark o.
Proof.
  unfold dark at 2. destruct (darkens o) eqn:Hd; [ | unfold dark; rewrite Hd; reflexivity].
  unfold dark, darkens in *. simpl. rewrite Hd. reflexivity.
Qed.

Lemma darkens_dark (o : Object3D) : darkens (dark o) = darkens o.
Proof. unfold dark. destruct (darkens o) eqn:Hd; [ | exact Hd]. exact Hd. Qed.

Lemma uuid_dark (o : Object3D) : uuid (dark o) = uuid o.
Proof. unfold dark. destruct (darkens o); reflexivity. Qed.

Lemma map_objects_dark_twice (n : SceneNode) :
  map_objects dark (map_objects dark n) = map_objects dark n.
Proof.
  induction n as [obj children IH] using SceneNode_ind. simpl.
  rewrite dark_dark. f_equal. rewrite map_map.
  induction IH as [| c rest Hc _ IHrest]; simpl; [reflexivity | ].
  rewrite Hc, IHrest. reflexivity.
Qed.

Lemma uuids_map_dark (os : list Object3D) : map uuid (map dark os) = map uuid os.
Proof.
  rewrite map_map. apply map_ext. intros o. apply uuid_dark.
Qed.

(** X18. Two darken traversals without a restore between them (a frame
    whose render threw, then another frame) overwrite the saved materials:
    the restore traversal that follows empties the side table but leaves
    every mesh with the black [darkMaterial]. *)
Theorem darken_twice_loses_materials (scene : SceneNode) :
  NoDup (uuids scene) ->
  traverse restoreMaterials
    (traverse darkenNonBloom (traverse darkenNonBloom scene ∅).1
                             (traverse darkenNonBloom scene ∅).2).1
    (traverse darkenNonBloom (traverse darkenNonBloom scene ∅).1
                             (traverse darkenNonBloom scene ∅).2).2
  = (map_objects dark scene, ∅) /\
  Forall (fun o => isMesh o = true -> material o = Some darkMaterial)
         (objects (map_objects dark scene)).
Proof.
  intros Hnd. rewrite (traverse_darken scene). cbn [fst snd].
  rewrite traverse_darken. cbn [fst snd].
  rewrite map_objects_dark_twice.
  set (n1 := map_objects dark scene).
  assert (Hobj : objects n1 = map dark (objects scene)) by apply objects_map_objects.
  assert (Hnd1 : NoDup (uuids n1)).
  { unfold uuids. rewrite Hobj, uuids_map_dark. exact Hnd. }
  split.
  - replace n1 with (map_objects dark n1) at 1 by apply map_objects_dark_twice.
    rewrite traverse_restore.
    + f_equal. apply map_eq. intros k. rewrite lookup_delete_all.
      destruct (decide (k ∈ map uuid (objects n1))) as [Hk | Hk].
      * symmetry. apply lookup_empty.
      * rewrite lookup_save_all_notin by exact Hk.
        rewrite lookup_save_all_notin; [reflexivity | ].
        rewrite Hobj, uuids_map_dark in Hk. exact Hk.
    + exact Hnd1.
    + intros o1 Ho1. rewrite lookup_save_all_in by assumption.
      destruct (darkens o1) eqn:Hd; [reflexivity | ].
      rewrite Hobj in Ho1. apply list_elem_of_In in Ho1.
      apply in_map_iff in Ho1 as [o [<- Ho]]. apply list_elem_of_In in Ho.
      rewrite uuid_dark. rewrite darkens_dark in Hd.
      rewrite lookup_save_all_in by assumption. rewrite Hd. apply lookup_empty.
  - rewrite Hobj. apply Forall_forall. intros o1 Ho1.
    apply list_elem_of_In in Ho1. apply in_map_iff in Ho1 as [o [<- _]].
    intros Hmesh. unfold dark in *. rewrite darkens_isMesh in *.
    destruct (isMesh o) eqn:Hm; [reflexivity | ]. rewrite Hmesh in Hm. discriminate.
Qed.

Lemma darken_twice_loses_materials_witness :
  NoDup (uuids (Node (mkObject3D 1 false new_Layers None)
          [Node (mkObject3D 2 true (addToBloom new_Layers) (Some ShaderMaterial)) []])) /\
  Forall (fun o => isMesh o = true -> material o = Some darkMaterial)
         (objects (map_objects dark
            (Node (mkObject3D 1 false new_Layers None)
               [Node (mkObject3D 2 true (addToBloom new_Layers) (Some ShaderMaterial)) []]))).
Proof.
  split; [exact two_object_scene_NoDup | ].
  exact (proj2 (darken_twice_loses_materials _ two_object_scene_NoDup)).
Defined.

End BloomExtras.

Section LayersFacts.
Import Bloom.
Local Open Scope Z_scope.

Lemma to_int32_small (n : Z) : - 2 ^ 31 <= n < 2 ^ 31 -> to_int32 n = n.
Proof.
  intros Hn. unfold to_int32. rewrite Z.mod_small; lia.
Qed.

Lemma testbit_to_int32 (n j : Z) : 0 <= j < 32 -> Z.testbit (to_int32 n) j = Z.testbit n j.
Proof.
  intros Hj. unfold to_int32.
  rewrite Z.mod_eq by lia.
  replace (n + 2 ^ 31 - 2 ^ 32 * ((n + 2 ^ 31) / 2 ^ 32) - 2 ^ 31)
    with (n + (- ((n + 2 ^ 31) / 2 ^ 32)) * 2 ^ 32) by ring.
  rewrite <- (Z.mod_pow2_bits_low (n + _ * 2 ^ 32) 32 j) by lia.
  rewrite Z_mod_plus_full.
  apply Z.mod_pow2_bits_low. lia.
Qed.

Lemma land_pow2_eqb (m k : Z) : 0 <= k -> (Z.land m (2 ^ k) =? 0) = negb (Z.testbit m k).
Proof.
  intros Hk. destruct (Z.testbit m k) eqn:Hb; simpl.
  - apply Z.eqb_neq. intros H0.
    assert (Hbit : Z.testbit (Z.land m (2 ^ k)) k = true).
    { rewrite Z.land_spec, Hb, Z.pow2_bits_true by lia. reflexivity. }
    rewrite H0, Z.bits_0 in Hbit. discriminate.
  - apply Z.eqb_eq. apply Z.bits_inj'. intros n Hn.
    rewrite Z.land_spec, Z.bits_0.
    destruct (Z.eq_dec k n) as [<- | Hne].
    + rewrite Hb. reflexivity.
    + rewrite (Z.pow2_bits_false k n) by lia. apply andb_false_r.
Qed.

Lemma isEnabled_testbit (l : Layers) (k : Z) :
  0 <= k < 31 -> isEnabled l k = Z.testbit (mask l) k.
Proof.
  intros Hk. unfold isEnabled.
  rewrite Z.mod_small by lia. rewrite Z.shiftl_1_l.
  rewrite to_int32_small.
  - rewrite land_pow2_eqb by lia. apply negb_involutive.
  - split.
    + pose proof (Z.pow_pos_nonneg 2 k). lia.
    + apply Z.pow_lt_mono_r; lia.
Qed.

(** X19. [addToBloom] enables the bloom layer and leaves every other layer
    (0 to 30) of the object as it was; in particular layer 0, on which the
    camera sees the object, stays enabled. *)
Theorem addToBloom_sets_only_the_bloom_layer (l : Layers) (k : Z) :
  0 <= k < 31 ->
  isEnabled (addToBloom l) BLOOM_LAYER = true /\
  (k <> BLOOM_LAYER -> isEnabled (addToBloom l) k = isEnabled l k).
Proof.
  intros Hk. unfold BLOOM_LAYER.
  assert (Hmask : forall j, 0 <= j < 31 ->
            Z.testbit (mask (addToBloom l)) j = Z.testbit (mask l) j || (j =? 1)).
  { intros j Hj. unfold addToBloom, enable, BLOOM_LAYER. simpl mask.
    change (Z.shiftl 1 (1 mod 32)) with 2. rewrite (to_int32_small 2) by lia.
    rewrite testbit_to_int32 by lia. rewrite Z.lor_spec.
    change 2 with (2 ^ 1). rewrite Z.pow2_bits_eqb by lia.
    rewrite (Z.eqb_sym 1 j). reflexivity. }
  split.
  - rewrite isEnabled_testbit by lia. rewrite Hmask by lia. apply orb_true_r.
  - intros Hne. rewrite !isEnabled_testbit by lia. rewrite Hmask by lia.
    assert (Hf : (k =? 1) = false) by (apply Z.eqb_neq; exact Hne).
    rewrite Hf. apply orb_false_r.
Qed.

Lemma addToBloom_sets_only_the_bloom_layer_witness :
  0 <= 0 < 31 /\
  isEnabled (addToBloom new_Layers) BLOOM_LAYER = true /\
  isEnabled (addToBloom new_Layers) 0 = isEnabled new_Layers 0.
Proof.
  assert (Hk : 0 <= 0 < 31) by lia.
  split; [exact Hk | split].
  - exact (proj1 (addToBloom_sets_only_the_bloom_layer new_Layers 0 Hk)).
  - apply (proj2 (addToBloom_sets_only_the_bloom_layer new_Layers 0 Hk)).
    unfold BLOOM_LAYER. lia.
Defined.

End LayersFacts.

(** ** The lava threshold, the lattice and the colour ramp *)

Section ShaderExtras.
Import Shader ShaderColor.
Local Open Scope Q_scope.











(** X23. For a non-negative [uGlow] the pulsation factor stays between
    60% and 100% of [uGlow] at every time. *)
Theorem glow_factor_bounds (glow time speed : R) :
  (0 <= glow -> 0.6 * glow <= glow_factor glow time speed <= glow)%R.
Proof.
  intros Hg. unfold glow_factor.
  destruct (SIN_bound (time * speed * 6.2831)) as [Hlo Hhi].
  generalize dependent (sin (time * speed * 6.2831)). intros s Hlo Hhi.
  split; nra.
Qed.

Lemma glow_factor_bounds_witness :
  (0 <= 2.2 /\ 0.6 * 2.2 <= glow_factor 2.2 10 0.12 <= 2.2)%R.
Proof.
  assert (H : (0 <= 2.2)%R) by lra.
  split; [exact H | ].
  exact (glow_factor_bounds 2.2 10 0.12 H).
Defined.

End ShaderExtras.
